(** * TEBD toy code (toycodes/c_tebd.py): a shallow embedding

    The development follows the Python source top to bottom:
    - [Py]     : exceptions, list indexing and [range] as Python has them;
    - [Numpy]  : dense arrays (shape + row-major buffer) with the handful of
                 numpy operations the source calls ([reshape], [transpose],
                 [diag], [dot], [tensordot], elementwise power [-1]);
    - [Tebd]   : the MPS object, [calc_U_bonds], [update_bond], [run_TEBD];
    - then the lemmas and the theorems about them. *)

From Stdlib Require Import ZArith QArith Qabs Lia List String Bool.
From stdpp Require Import base tactics option list.

Open Scope Z_scope.
Open Scope nat_scope.
Open Scope list_scope.

(* ===================================================================== *)
(** ** Python: exceptions, indexing, range *)
(* ===================================================================== *)

Module Py.

(** The exceptions that the modelled code can raise. *)
Inductive exn : Set :=
| AssertionError
| IndexError
| ValueError
| ZeroDivisionError
| LinAlgError.

Inductive result (A : Type) : Type :=
| Ok (a : A)
| Raise (e : exn).
Arguments Ok {A} a.
Arguments Raise {A} e.

Definition rbind {A B : Type} (r : result A) (k : A -> result B) : result B :=
  match r with
  | Ok a => k a
  | Raise e => Raise e
  end.

Definition is_ok {A : Type} (r : result A) : bool :=
  match r with Ok _ => true | Raise _ => false end.

(** [l[i]] for a Python list or tuple: negative indices count from the end. *)
Definition getitem {A : Type} (l : list A) (i : Z) : result A :=
  let n := Z.of_nat (length l) in
  let i' := (if i <? 0 then i + n else i)%Z in
  if ((0 <=? i') && (i' <? n))%Z
  then match l !! Z.to_nat i' with
       | Some x => Ok x
       | None => Raise IndexError
       end
  else Raise IndexError.

(** [l[i] = x]: same index rule, the list keeps its length. *)
Definition setitem {A : Type} (l : list A) (i : Z) (x : A) : result (list A) :=
  let n := Z.of_nat (length l) in
  let i' := (if i <? 0 then i + n else i)%Z in
  if ((0 <=? i') && (i' <? n))%Z
  then Ok (<[Z.to_nat i' := x]> l)
  else Raise IndexError.

(** [a % b] on Python integers: floor modulus, [ZeroDivisionError] on 0. *)
Definition mod_ (a b : Z) : result Z :=
  if (b =? 0)%Z then Raise ZeroDivisionError else Ok (a mod b)%Z.

(** [range(start, stop, step)] for a positive step:
    [max 0 ((stop - start + step - 1) // step)] elements. *)
Definition range (start stop step : Z) : list Z :=
  map (fun n => (start + step * Z.of_nat n)%Z)
      (seq 0 (Z.to_nat ((stop - start + step - 1) / step))).

End Py.
Export Py.

Declare Scope result_scope.
Delimit Scope result_scope with res.
Notation "'let*' x ':=' r 'in' k" := (rbind r (fun x => k))
  (at level 10, x name, r at level 100, k at level 200) : result_scope.

(* ===================================================================== *)
(** ** Scalars *)
(* ===================================================================== *)

(** Array entries are IEEE floating-point numbers (float64, or complex128
    when the time step is imaginary).  The source never inspects them; the
    only facts used below are the ones that hold for both dtypes: a
    non-finite operand (inf or nan) makes a sum or a product non-finite,
    and the reciprocal of a zero is non-finite (numpy warns, it does not
    raise). *)
Class Scalar : Type := {
  scalar : Type;
  s_zero : scalar;
  s_add : scalar -> scalar -> scalar;
  s_mul : scalar -> scalar -> scalar;
  s_neg : scalar -> scalar;
  s_inv : scalar -> scalar;            (* x ** (-1) *)
  is_finite : scalar -> bool;          (* numpy.isfinite *)
  is_zero : scalar -> bool;            (* x == 0 *)
  add_nonfinite_l : forall x y, is_finite x = false -> is_finite (s_add x y) = false;
  add_nonfinite_r : forall x y, is_finite y = false -> is_finite (s_add x y) = false;
  mul_nonfinite_l : forall x y, is_finite x = false -> is_finite (s_mul x y) = false;
  mul_nonfinite_r : forall x y, is_finite y = false -> is_finite (s_mul x y) = false;
  inv_zero_nonfinite : forall x, is_zero x = true -> is_finite (s_inv x) = false
}.

(* ===================================================================== *)
(** ** numpy arrays *)
(* ===================================================================== *)

Module Numpy.
Section WithScalar.
Context {SC : Scalar}.

(** A C-contiguous array: its shape and its row-major buffer. *)
Record ndarray : Type := mk_nd { shape : list nat; data : list scalar }.

Definition prod (l : list nat) : nat := fold_right Nat.mul 1 l.
Definition size (a : ndarray) : nat := prod (shape a).
Definition ndim (a : ndarray) : nat := length (shape a).

(** The buffer has as many entries as the shape says. *)
Definition wf_nd (a : ndarray) : Prop := length (data a) = size a.

(** Element strides of a row-major array. *)
Fixpoint strides (shp : list nat) : list nat :=
  match shp with
  | [] => []
  | _ :: rest => prod rest :: strides rest
  end.

(** Multi-index of the flat position [k] in an array of shape [shp]. *)
Fixpoint unravel (shp : list nat) (k : nat) : list nat :=
  match shp with
  | [] => []
  | n :: rest => (k / prod rest) mod n :: unravel rest k
  end.

Fixpoint offset (st idx : list nat) : nat :=
  match st, idx with
  | s :: st', i :: idx' => i * s + offset st' idx'
  | _, _ => 0
  end.

(** [a[idx]] for a full multi-index. *)
Definition item (a : ndarray) (idx : list nat) : scalar :=
  nth (offset (strides (shape a)) idx) (data a) s_zero.

Definition ssum (l : list scalar) : scalar := fold_left s_add l s_zero.

(** [c * a] for a scalar [c]. *)
Definition scale (c : scalar) (a : ndarray) : ndarray :=
  mk_nd (shape a) (map (s_mul c) (data a)).

(** [a ** (-1)], elementwise. *)
Definition pow_m1 (a : ndarray) : ndarray :=
  mk_nd (shape a) (map s_inv (data a)).

(** [numpy.reshape(a, newshape)]: the buffer is kept, the sizes must agree. *)
Definition reshape (a : ndarray) (newshape : list nat) : result ndarray :=
  if prod newshape =? size a then Ok (mk_nd newshape (data a))
  else Raise ValueError.

(** [axes] is a permutation of [0 .. n-1]. *)
Definition is_perm (n : nat) (axes : list nat) : bool :=
  (length axes =? n) && forallb (fun k => existsb (Nat.eqb k) axes) (seq 0 n).

Definition pick (l : list nat) (axes : list nat) : list nat :=
  map (fun ax => nth ax l 0) axes.

(** [numpy.transpose(a, axes)]: shape and strides are permuted; the result
    is given here as the contiguous copy every later operation reads. *)
Definition transpose (a : ndarray) (axes : list nat) : result ndarray :=
  if is_perm (ndim a) axes then
    let shp := pick (shape a) axes in
    let st := pick (strides (shape a)) axes in
    Ok (mk_nd shp (map (fun k => nth (offset st (unravel shp k)) (data a) s_zero)
                       (seq 0 (prod shp))))
  else Raise ValueError.

(** [numpy.diag(v)]: a 1-d input is put on the diagonal of a square matrix,
    the diagonal of a 2-d input is extracted. *)
Definition diag (v : ndarray) : result ndarray :=
  match shape v with
  | [n] =>
      Ok (mk_nd [n; n]
            (map (fun k => if k / n =? k mod n then nth (k / n) (data v) s_zero
                           else s_zero)
                 (seq 0 (n * n))))
  | [r; c] =>
      Ok (mk_nd [Nat.min r c]
            (map (fun t => nth (t * c + t) (data v) s_zero) (seq 0 (Nat.min r c))))
  | _ => Raise ValueError
  end.

(** Buffer of the matrix product of an [n x k] by a [k x m] buffer. *)
Definition dot_data (n k m : nat) (A B : list scalar) : list scalar :=
  map (fun p => ssum (map (fun t => s_mul (nth (p / m * k + t) A s_zero)
                                           (nth (t * m + p mod m) B s_zero))
                          (seq 0 k)))
      (seq 0 (n * m)).

(** [numpy.dot] on two matrices. *)
Definition dot (a b : ndarray) : result ndarray :=
  match shape a, shape b with
  | [n; k], [k'; m] =>
      if k =? k' then Ok (mk_nd [n; m] (dot_data n k m (data a) (data b)))
      else Raise ValueError
  | _, _ => Raise ValueError
  end.

(** The loop of [tensordot] that compares the contracted dimensions pair by
    pair ([as_[axes_a[k]] != bs[axes_b[k]]]). *)
Fixpoint axes_equal (sa sb : list nat) (axes_a axes_b : list nat) : result bool :=
  match axes_a, axes_b with
  | x :: xs, y :: ys =>
      (let* da := getitem sa (Z.of_nat x) in
       let* db := getitem sb (Z.of_nat y) in
       if da =? db then axes_equal sa sb xs ys else Ok false)%res
  | _, _ => Ok true
  end.

Definition notin (n : nat) (axes : list nat) : list nat :=
  filter (fun k => negb (existsb (Nat.eqb k) axes)) (seq 0 n).

(** [numpy.tensordot(a, b, axes=(axes_a, axes_b))], as numpy computes it:
    move the contracted axes last in [a] and first in [b], flatten both to
    matrices, multiply, and unflatten. *)
Definition tensordot (a b : ndarray) (axes_a axes_b : list nat) : result ndarray :=
  (if negb (length axes_a =? length axes_b) then Raise ValueError else
   let* equal := axes_equal (shape a) (shape b) axes_a axes_b in
   if negb equal then Raise ValueError else
   let free_a := notin (ndim a) axes_a in
   let free_b := notin (ndim b) axes_b in
   let N2 := prod (pick (shape a) axes_a) in
   let olda := pick (shape a) free_a in
   let oldb := pick (shape b) free_b in
   let* ta := transpose a (free_a ++ axes_a) in
   let* at_ := reshape ta [prod olda; N2] in
   let* tb := transpose b (axes_b ++ free_b) in
   let* bt := reshape tb [N2; prod oldb] in
   let* res := dot at_ bt in
   reshape res (olda ++ oldb))%res.

End WithScalar.
End Numpy.
Export Numpy.

(* ===================================================================== *)
(** ** The MPS object and the TEBD routines *)
(* ===================================================================== *)

Declare Scope mps_scope.
Delimit Scope mps_scope with mps.

Module Tebd.
Section WithScalar.
Context {SC : Scalar}.

(** The attributes of the [MPS] object that the source reads and writes:
    [psi.Bs], [psi.Ss], [psi.bc], [psi.L]. *)
Record MPS : Type := mk_MPS {
  Bs : list ndarray;
  Ss : list ndarray;
  bc : string;
  L : Z
}.

(** One B tensor and one S vector per site. *)
Definition wf (psi : MPS) : Prop :=
  Z.of_nat (length (Bs psi)) = L psi /\ Z.of_nat (length (Ss psi)) = L psi.

(** Code that works on the shared object [psi]: it returns a value or
    raises, and in both cases leaves [psi] as it is at that moment. *)
Definition M (A : Type) : Type := MPS -> result A * MPS.

Definition ret {A : Type} (a : A) : M A := fun psi => (Ok a, psi).

Definition bind {A B : Type} (m : M A) (k : A -> M B) : M B :=
  fun psi =>
    match m psi with
    | (Ok a, psi') => k a psi'
    | (Raise e, psi') => (Raise e, psi')
    end.

Definition lift {A : Type} (r : result A) : M A := fun psi => (r, psi).

Definition read {A : Type} (f : MPS -> A) : M A := fun psi => (Ok (f psi), psi).

Local Notation "'let*' x ':=' m 'in' k" := (bind m (fun x => k))
  (at level 10, x name, m at level 100, k at level 200) : mps_scope.

(** [psi.Bs[i] = x] *)
Definition set_Bs (i : Z) (x : ndarray) : M unit :=
  fun psi =>
    match setitem (Bs psi) i x with
    | Ok l => (Ok tt, mk_MPS l (Ss psi) (bc psi) (L psi))
    | Raise e => (Raise e, psi)
    end.

(** [psi.Ss[i] = x] *)
Definition set_Ss (i : Z) (x : ndarray) : M unit :=
  fun psi =>
    match setitem (Ss psi) i x with
    | Ok l => (Ok tt, mk_MPS (Bs psi) l (bc psi) (L psi))
    | Raise e => (Raise e, psi)
    end.

(** [for x in xs: body(x)] *)
Fixpoint for_ {A : Type} (xs : list A) (body : A -> M unit) : M unit :=
  match xs with
  | [] => ret tt
  | x :: xs' => (let* _ := body x in for_ xs' body)%mps
  end.

(** [assert b] *)
Definition assert (b : bool) : M unit :=
  if b then ret tt else lift (Raise AssertionError).

(** Modelled from the spec: [MPS.get_theta2] lives in [a_mps.py], which is
    not part of the sources at hand.  "Returns the two-site wavefunction
    spanning sites i, i+1, constructed by contracting diag(S[i]) with B[i]
    then with B[(i+1) mod L].  Read-only; no mutation."  The legs are
    [vL i j vR]: the diagonal matrix goes on the left bond of [B[i]], whose
    right bond meets the left bond of [B[j]]. *)
Definition get_theta2 (i : Z) : M ndarray :=
  (let* l := read L in
   let* j := lift (mod_ (i + 1) l) in
   let* ss := read Ss in
   let* bs := read Bs in
   lift (let* Si := getitem ss i in
         let* D := diag Si in
         let* Bi := getitem bs i in
         let* theta1 := tensordot D Bi [1] [0] in
         let* Bj := getitem bs j in
         tensordot theta1 Bj [2] [0])%res)%mps.

(** The two library routines the source imports: [scipy.linalg.expm] and
    [a_mps.split_truncate_theta] (an SVD with truncation).  Both are pure;
    nothing is assumed about the values they return. *)
Variable expm : ndarray -> result ndarray.
Variable split_truncate_theta :
  ndarray -> Z -> scalar -> result (ndarray * ndarray * ndarray).

(** The body of the loop of [calc_U_bonds]; [U_bonds] is the list built so
    far. *)
Fixpoint calc_U_bonds_loop (d : nat) (dt : scalar) (Hs U_bonds : list ndarray)
  : result (list ndarray) :=
  match Hs with
  | [] => Ok U_bonds
  | H :: Hs' =>
      (let* H' := reshape H [d * d; d * d] in
       let* U := expm (scale (s_neg dt) H') in
       let* U4 := reshape U [d; d; d; d] in
       calc_U_bonds_loop d dt Hs' (U_bonds ++ [U4]))%res
  end.

(** [calc_U_bonds(H_bonds, dt)] *)
Definition calc_U_bonds (H_bonds : list ndarray) (dt : scalar)
  : result (list ndarray) :=
  (let* H0 := getitem H_bonds 0 in
   let* d := getitem (shape H0) 0 in
   calc_U_bonds_loop d dt H_bonds [])%res.

(** [update_bond(psi, i, U_bond, chi_max, eps)] *)
Definition update_bond (i : Z) (U_bond : ndarray) (chi_max : Z) (eps : scalar)
  : M unit :=
  (let* l := read L in
   let* j := lift (mod_ (i + 1) l) in
   let* theta := get_theta2 i in
   let* Utheta := lift (tensordot U_bond theta [2; 3] [1; 2]) in
   let* Utheta := lift (transpose Utheta [2; 0; 1; 3]) in
   let* ASB := lift (split_truncate_theta Utheta chi_max eps) in
   let '(Ai, Sj, Bj) := ASB in
   let* ss := read Ss in
   let* Si := lift (getitem ss i) in
   let* D := lift (diag (pow_m1 Si)) in
   let* Gi := lift (tensordot D Ai [1] [0]) in
   let* DS := lift (diag Sj) in
   let* Bi := lift (tensordot Gi DS [2] [0]) in
   let* _ := set_Bs i Bi in
   let* _ := set_Ss j Sj in
   set_Bs j Bj)%mps.

(** [psi.L - 1 if psi.bc == 'finite' else psi.L] *)
Definition Nbonds_of (psi : MPS) : Z :=
  if String.eqb (bc psi) "finite" then (L psi - 1)%Z else L psi.

(** [run_TEBD(psi, U_bonds, N_steps, chi_max, eps)] *)
Definition run_TEBD (U_bonds : list ndarray) (N_steps : Z) (chi_max : Z)
    (eps : scalar) : M unit :=
  (let* Nbonds := read Nbonds_of in
   let* _ := assert (Z.of_nat (length U_bonds) =? Nbonds)%Z in
   for_ (range 0 N_steps 1) (fun n =>
     for_ [0; 1]%Z (fun k =>
       for_ (range k Nbonds 2) (fun i_bond =>
         let* U := lift (getitem U_bonds i_bond) in
         update_bond i_bond U chi_max eps))))%mps.

End WithScalar.
End Tebd.
Export Tebd.

(* ===================================================================== *)
(** ** Stages of a bond update, as the specification names them *)
(* ===================================================================== *)

Module Stages.
Section WithScalar.
Context {SC : Scalar}.
Variable split_truncate_theta :
  ndarray -> Z -> scalar -> result (ndarray * ndarray * ndarray).

Local Notation "'let*' x ':=' m 'in' k" := (bind m (fun x => k))
  (at level 10, x name, m at level 100, k at level 200) : mps_scope.

(** The even-indexed, resp. odd-indexed, bonds of [0 .. n-1], increasing. *)
Definition bonds_upto (n : Z) : list Z := map Z.of_nat (seq 0 (Z.to_nat n)).
Definition even_bonds (n : Z) : list Z := filter (fun i => Z.even i) (bonds_upto n).
Definition odd_bonds (n : Z) : list Z := filter (fun i => Z.odd i) (bonds_upto n).

(** The bonds visited by [steps] time steps, in order. *)
Definition schedule (steps : nat) (n : Z) : list Z :=
  concat (repeat (even_bonds n ++ odd_bonds n) steps).

(** "Contract theta with U_bonds[i] on its physical legs": the input legs
    [i* j*] of the gate meet the legs [i j] of [theta]; the result has legs
    [vL i j vR] again. *)
Definition apply_gate (U_bond theta : ndarray) : result ndarray :=
  (let* Utheta := tensordot U_bond theta [2; 3] [1; 2] in
   transpose Utheta [2; 0; 1; 3])%res.

(** The left factor in B form: [diag(S_i)^-1 . A . diag(Sj)]. *)
Definition gauge (Si A Sj : ndarray) : result ndarray :=
  (let* D := diag (pow_m1 Si) in
   let* Gi := tensordot D A [1] [0] in
   let* DS := diag Sj in
   tensordot Gi DS [2] [0])%res.

(** [set_bond(i, A, Sj, Bj)] of the specification: gauge the left tensor by
    the inverse of the previous singular values of bond [i], store it at
    site [i], store [Sj] and [Bj] at [j = (i+1) mod L]. *)
Definition set_bond (i : Z) (A Sj Bj : ndarray) : M unit :=
  (let* l := read L in
   let* j := lift (mod_ (i + 1) l) in
   let* ss := read Ss in
   let* Si := lift (getitem ss i) in
   let* Bi := lift (gauge Si A Sj) in
   let* _ := set_Bs i Bi in
   let* _ := set_Ss j Sj in
   set_Bs j Bj)%mps.

(** One bond update as the four steps of the sweep scheduler. *)
Definition bond_step (i : Z) (U_bond : ndarray) (chi_max : Z) (eps : scalar)
  : M unit :=
  (let* theta := get_theta2 i in
   let* Utheta := lift (apply_gate U_bond theta) in
   let* ASB := lift (split_truncate_theta Utheta chi_max eps) in
   let '(Ai, Sj, Bj) := ASB in
   set_bond i Ai Sj Bj)%mps.

(** The gated two-site tensor of bond [i], as a function of the chain. *)
Definition gated_theta (psi : MPS) (i : Z) (U_bond : ndarray) : result ndarray :=
  match get_theta2 i psi with
  | (Ok theta, _) => apply_gate U_bond theta
  | (Raise e, _) => Raise e
  end.

(** What a bond update is about to store: [(j, B_i, S_j, B_j)]. *)
Definition new_tensors (psi : MPS) (i : Z) (U_bond : ndarray) (chi_max : Z)
    (eps : scalar) : result (Z * ndarray * ndarray * ndarray) :=
  (let* j := mod_ (i + 1) (L psi) in
   let* Utheta := gated_theta psi i U_bond in
   let* ASB := split_truncate_theta Utheta chi_max eps in
   let '(Ai, Sj, Bj) := ASB in
   let* Si := getitem (Ss psi) i in
   let* Bi := gauge Si Ai Sj in
   Ok (j, Bi, Sj, Bj))%res.

(** The chain after the three stores of a bond update. *)
Definition stored (psi : MPS) (i j : Z) (Bi Sj Bj : ndarray) : MPS :=
  mk_MPS (<[Z.to_nat j := Bj]> (<[Z.to_nat i := Bi]> (Bs psi)))
         (<[Z.to_nat j := Sj]> (Ss psi)) (bc psi) (L psi).

(** The sites a bond update works on. *)
Definition bond_sites (psi : MPS) (i : Z) : list Z := [i; ((i + 1) mod L psi)%Z].

(** [U] is the gate of the bond Hamiltonian [H]: the matrix exponential of
    [-dt * H] taken on the [(d d) x (d d)] matrix and given four legs
    again. *)
Definition gate_of (expm : ndarray -> result ndarray) (d : nat) (dt : scalar)
    (H U : ndarray) : Prop :=
  exists Hm E,
    reshape H [d * d; d * d] = Ok Hm /\
    expm (scale (s_neg dt) Hm) = Ok E /\
    reshape E [d; d; d; d] = Ok U.

End WithScalar.
End Stages.
Export Stages.

(* ===================================================================== *)
(** ** Further definitions: layouts, shapes along the chain, one-site
       operators *)
(* ===================================================================== *)

(** The chain [psi'] has the length, the boundary condition and the two
    list lengths of [psi]. *)
Definition same_layout {SC : Scalar} (psi psi' : MPS) : Prop :=
  L psi' = L psi /\ bc psi' = bc psi /\
  length (Bs psi') = length (Bs psi) /\ length (Ss psi') = length (Ss psi).

(** The body of the innermost loop of [run_TEBD]. *)
Definition sweep_body {SC : Scalar}
    (split_truncate_theta : ndarray -> Z -> scalar -> result (ndarray * ndarray * ndarray))
    (U_bonds : list ndarray) (chi_max : Z) (eps : scalar) (i_bond : Z) : M unit :=
  bind (lift (getitem U_bonds i_bond))
       (fun U => update_bond split_truncate_theta i_bond U chi_max eps).

(** The buffer of [numpy.transpose(a, axes)]. *)
Definition transpose_data {SC : Scalar} (a : ndarray) (axes : list nat) : list scalar :=
  map (fun k => nth (offset (pick (strides (shape a)) axes)
                       (unravel (pick (shape a) axes) k)) (data a) s_zero)
      (seq 0 (prod (pick (shape a) axes))).

(** The shapes along a chain fit: with [chi k] the dimension of the bond to
    the left of site [k], [S[k]] has length [chi k] and [B[k]] has shape
    [(chi k, d, chi (k+1))]; on an infinite chain the bond to the right of
    the last site is the bond to the left of the first. *)
Definition conforming {SC : Scalar} (d : nat) (psi : MPS) (chi : nat -> nat) : Prop :=
  wf psi /\
  (forall k B, Bs psi !! k = Some B -> shape B = [chi k; d; chi (S k)]) /\
  (forall k S, Ss psi !! k = Some S -> shape S = [chi k]) /\
  (bc psi <> "finite"%string -> chi (length (Bs psi)) = chi 0).

(** What is assumed of the decomposition routine: on a two-site tensor of
    shape [(a, d, d, c)] it returns factors of shapes [(a, d, k)], [(k)] and
    [(k, d, c)] for some [k]. *)
Definition split_shapes {SC : Scalar}
    (split_truncate_theta : ndarray -> Z -> scalar -> result (ndarray * ndarray * ndarray))
    (d : nat) : Prop :=
  forall theta chi_max eps A S B a c,
    shape theta = [a; d; d; c] ->
    split_truncate_theta theta chi_max eps = Ok (A, S, B) ->
    exists k, shape A = [a; d; k] /\ shape S = [k] /\ shape B = [k; d; c].

(** Lines 100-101 of [example_TEBD_lightcone]: a one-site operator [op]
    (legs [i i*]) is applied to the physical leg of [psi.Bs[i0]], and the
    result is stored back with the legs in the order [vL i vR]. *)
Definition apply_site_operator {SC : Scalar} (op : ndarray) (i0 : Z) : M unit :=
  bind (read Bs) (fun bs =>
  bind (lift (getitem bs i0)) (fun B =>
  bind (lift (tensordot op B [1] [1])) (fun SzB =>
  bind (lift (transpose SzB [1; 0; 2])) (fun B' =>
  set_Bs i0 B')))).

(* ===================================================================== *)
(** ** A concrete scalar type and concrete chains *)
(* ===================================================================== *)

(** Exact rationals extended with the three non-finite values of IEEE
    arithmetic.  This is the arithmetic the examples below are run in. *)
Module Xreal.

Inductive xreal : Set :=
| Fin (q : Q)
| PInf
| NInf
| NaN.

Definition xzero : xreal := Fin 0.
Definition xone : xreal := Fin 1.

Definition xadd (x y : xreal) : xreal :=
  match x, y with
  | Fin a, Fin b => Fin (Qred (a + b))
  | NaN, _ | _, NaN => NaN
  | PInf, NInf | NInf, PInf => NaN
  | PInf, _ | _, PInf => PInf
  | NInf, _ | _, NInf => NInf
  end.

Definition xneg (x : xreal) : xreal :=
  match x with
  | Fin a => Fin (Qred (- a))
  | PInf => NInf
  | NInf => PInf
  | NaN => NaN
  end.

(** [inf * a] for a finite [a]: the sign of [a] decides, [inf * 0] is nan. *)
Definition inf_times (pos : bool) (a : Q) : xreal :=
  match (a ?= 0)%Q with
  | Eq => NaN
  | Gt => if pos then PInf else NInf
  | Lt => if pos then NInf else PInf
  end.

Definition xmul (x y : xreal) : xreal :=
  match x, y with
  | Fin a, Fin b => Fin (Qred (a * b))
  | NaN, _ | _, NaN => NaN
  | PInf, Fin a | Fin a, PInf => inf_times true a
  | NInf, Fin a | Fin a, NInf => inf_times false a
  | PInf, PInf | NInf, NInf => PInf
  | PInf, NInf | NInf, PInf => NInf
  end.

Definition xinv (x : xreal) : xreal :=
  match x with
  | Fin a => if Qeq_bool a 0 then PInf else Fin (Qred (/ a))
  | PInf | NInf => Fin 0
  | NaN => NaN
  end.

Definition xfinite (x : xreal) : bool :=
  match x with Fin _ => true | _ => false end.

Definition xis_zero (x : xreal) : bool :=
  match x with Fin a => Qeq_bool a 0 | _ => false end.

Definition xabs (x : xreal) : xreal :=
  match x with
  | Fin a => Fin (Qred (Qabs a))
  | NInf => PInf
  | _ => x
  end.

(** [x < y] on finite values (every comparison with nan is false). *)
Definition xlt (x y : xreal) : bool :=
  match x, y with
  | Fin a, Fin b => match (a ?= b)%Q with Lt => true | _ => false end
  | Fin _, PInf | NInf, Fin _ | NInf, PInf => true
  | _, _ => false
  end.

End Xreal.
Export Xreal.

#[export] Instance xreal_scalar : Scalar := {|
  scalar := xreal;
  s_zero := xzero;
  s_add := xadd;
  s_mul := xmul;
  s_neg := xneg;
  s_inv := xinv;
  is_finite := xfinite;
  is_zero := xis_zero;
  add_nonfinite_l := ltac:(intros [a| | |] [b| | |]; simpl; congruence);
  add_nonfinite_r := ltac:(intros [a| | |] [b| | |]; simpl; congruence);
  mul_nonfinite_l :=
    ltac:(intros [a| | |] [b| | |]; simpl; unfold inf_times;
          try destruct (b ?= 0)%Q; simpl; congruence);
  mul_nonfinite_r :=
    ltac:(intros [a| | |] [b| | |]; simpl; unfold inf_times;
          try destruct (a ?= 0)%Q; simpl; congruence);
  inv_zero_nonfinite :=
    ltac:(intros [a| | |]; simpl; try congruence;
          intros ->; reflexivity)
|}.

Module Examples.

(** An array of integers, given by its shape and its row-major entries. *)
Definition arr (shp : list nat) (l : list Z) : ndarray :=
  mk_nd shp (map (fun z => Fin (inject_Z z)) l).

(** Spin up [|0>] and spin down [|1>] as B tensors with bond dimension 1
    (legs [vL i vR]), and the trivial bond vector. *)
Definition B_up : ndarray := arr [1; 2; 1] [1; 0]%Z.
Definition B_down : ndarray := arr [1; 2; 1] [0; 1]%Z.
Definition S_one : ndarray := arr [1] [1]%Z.

(** Two-site gates, legs [i j i* j*]: the identity, a spin flip on both
    sites, and a flip of the left site controlled by the right one. *)
Definition U_id : ndarray :=
  arr [2; 2; 2; 2] [1;0;0;0; 0;1;0;0; 0;0;1;0; 0;0;0;1]%Z.
Definition U_flip : ndarray :=
  arr [2; 2; 2; 2] [0;0;0;1; 0;0;1;0; 0;1;0;0; 1;0;0;0]%Z.
Definition U_cflip : ndarray :=
  arr [2; 2; 2; 2] [1;0;0;0; 0;0;0;1; 0;0;1;0; 0;1;0;0]%Z.

(** Positions of the non-zero entries of a buffer. *)
Definition nonzeros (l : list xreal) : list nat :=
  filter (fun k => negb (xis_zero (nth k l xzero))) (seq 0 (length l)).

Definition one_hot (n k : nat) (v : xreal) : list xreal :=
  map (fun t => if t =? k then v else xzero) (seq 0 n).

(** A truncated SVD for the two-site tensors that have a single non-zero
    entry [q] (at row [r], column [c] of the [(vL i) x (j vR)] matrix):
    there the decomposition is [e_r * |q| * (sign q) e_c^T], exactly, and
    after truncation and normalisation the factors are [e_r], [[1]] and
    [(sign q) e_c^T].  The routine raises on every other input, and when
    [chi_max < 1] or [|q| <= eps] (nothing would be kept). *)
Definition split_one_entry (theta : ndarray) (chi_max : Z) (eps : xreal)
  : result (ndarray * ndarray * ndarray) :=
  match shape theta with
  | [chivL; dL; dR; chivR] =>
      match nonzeros (data theta) with
      | [p] =>
          let q := nth p (data theta) xzero in
          let cols := dR * chivR in
          if (1 <=? chi_max)%Z && xlt eps (xabs q) && xfinite q
             && (length (data theta) =? chivL * dL * cols) then
            Ok (mk_nd [chivL; dL; 1] (one_hot (chivL * dL) (p / cols) xone),
                mk_nd [1] [xone],
                mk_nd [1; dR; chivR] (one_hot cols (p mod cols) (xmul q (xinv (xabs q)))))
          else Raise LinAlgError
      | _ => Raise LinAlgError
      end
  | _ => Raise ValueError
  end.

(** A matrix exponential is not computable in exact arithmetic; the stand-in
    returns its argument and is only used where the value is irrelevant. *)
Definition expm_shape_only (a : ndarray) : result ndarray :=
  match shape a with
  | [n; m] => if n =? m then Ok a else Raise ValueError
  | _ => Raise ValueError
  end.

Definition product_state (sites : list ndarray) (bc : string) : MPS :=
  mk_MPS sites (map (fun _ => S_one) sites) bc (Z.of_nat (length sites)).

(** Product states of spins up. *)
Definition chain1 (bc : string) : MPS := product_state [B_up] bc.
Definition chain2 : MPS := product_state [B_up; B_up] "finite".
Definition chain3_infinite : MPS := product_state [B_up; B_up; B_up] "infinite".
Definition chain4 : MPS := product_state [B_up; B_up; B_up; B_up] "finite".

(** Three sites with a bond of dimension 2 between sites 0 and 1 whose
    second singular value is zero. *)
Definition chain_zero_sv : MPS :=
  mk_MPS [arr [1; 2; 2] [1; 0; 0; 1]%Z; arr [2; 2; 1] [1; 0; 0; 1]%Z; B_up]
         [S_one; arr [2] [1; 0]%Z; S_one] "finite" 3.

(** The spin flip on one site, legs [i i*]. *)
Definition sigma_x : ndarray := arr [2; 2] [0; 1; 1; 0]%Z.

(** A gate that sends every basis state to the sum of all four: its output
    has more than one non-zero entry, so [split_one_entry] raises on it. *)
Definition U_mix : ndarray :=
  arr [2; 2; 2; 2] [1;1;1;1; 1;1;1;1; 1;1;1;1; 1;1;1;1]%Z.

(** An infinite chain of one site with bond dimension 2. *)
Definition chain1_dim2 : MPS :=
  mk_MPS [arr [2; 2; 2] [1; 0; 0; 0; 0; 0; 0; 0]%Z] [arr [2] [1; 1]%Z] "infinite" 1.

End Examples.

(* ===================================================================== *)
(** ** Lemmas on Python lists and ranges *)
(* ===================================================================== *)

Section PyLemmas.
Context {A : Type}.
Implicit Types (l : list A) (i : Z) (x : A).

Lemma getitem_nonneg l i :
  (0 <= i)%Z ->
  getitem l i = match l !! Z.to_nat i with Some x => Ok x | None => Raise IndexError end.
Proof.
  intros Hi. unfold getitem.
  destruct (Z.ltb_spec i 0) as [?|_]; [lia|].
  destruct (Z.leb_spec 0 i) as [_|?]; [|lia]. simpl.
  destruct (Z.ltb_spec i (Z.of_nat (length l))) as [Hlt|Hge]; [done|].
  rewrite (proj2 (lookup_ge_None l (Z.to_nat i))); [done|lia].
Qed.

Lemma getitem_Ok_lookup l i x :
  (0 <= i)%Z -> getitem l i = Ok x <-> l !! Z.to_nat i = Some x.
Proof.
  intros Hi. rewrite getitem_nonneg by done.
  destruct (l !! Z.to_nat i); split; congruence.
Qed.

Lemma setitem_nonneg l i x :
  (0 <= i)%Z ->
  setitem l i x = if Z.to_nat i <? length l then Ok (<[Z.to_nat i := x]> l)
                  else Raise IndexError.
Proof.
  intros Hi. unfold setitem.
  destruct (Z.ltb_spec i 0) as [?|_]; [lia|].
  destruct (Z.leb_spec 0 i) as [_|?]; [|lia]. simpl.
  destruct (Z.ltb_spec i (Z.of_nat (length l))), (Nat.ltb_spec (Z.to_nat i) (length l));
    try done; lia.
Qed.

End PyLemmas.

Lemma range_unit_step (n : Z) : range 0 n 1 = bonds_upto n.
Proof.
  unfold range, bonds_upto.
  replace ((n - 0 + 1 - 1) / 1)%Z with n by (rewrite Z.div_1_r; lia).
  apply map_ext. intros; lia.
Qed.

Lemma length_range_unit_step (n : Z) : length (range 0 n 1) = Z.to_nat n.
Proof. rewrite range_unit_step. unfold bonds_upto. by rewrite length_map, length_seq. Qed.

Lemma filter_even_upto (n : nat) :
  filter (fun i => Z.even i) (map Z.of_nat (seq 0 n))
  = map (fun m => (0 + 2 * Z.of_nat m)%Z) (seq 0 (Nat.div2 (n + 1))).
Proof.
  induction n as [|n IH]; [done|].
  rewrite seq_S, map_app, filter_app, IH. simpl map at 2.
  replace (S n + 1) with (S (S n)) by lia. simpl Nat.div2.
  destruct (Nat.Even_Odd_dec n) as [He|Ho].
  - destruct He as [m ->].
    replace (2 * m + 1) with (S (2 * m)) by lia.
    rewrite Nat.div2_succ_double, Nat.div2_double.
    rewrite seq_S, map_app. f_equal. simpl.
    rewrite filter_cons_True.
    + rewrite filter_nil. f_equal. lia.
    + replace (Z.of_nat _) with (2 * Z.of_nat m)%Z by lia.
      by rewrite Z.even_mul.
  - destruct Ho as [m ->].
    replace (2 * m + 1 + 1) with (2 * (S m)) by lia.
    replace (2 * m + 1) with (S (2 * m)) at 2 by lia.
    rewrite Nat.div2_succ_double, Nat.div2_double.
    rewrite filter_cons_False, filter_nil; [by rewrite app_nil_r|].
    replace (Z.of_nat _) with (1 + 2 * Z.of_nat m)%Z by lia.
    rewrite Z.even_add_mul_2. simpl. tauto.
Qed.

Lemma filter_odd_upto (n : nat) :
  filter (fun i => Z.odd i) (map Z.of_nat (seq 0 n))
  = map (fun m => (1 + 2 * Z.of_nat m)%Z) (seq 0 (Nat.div2 n)).
Proof.
  induction n as [|n IH]; [done|].
  rewrite seq_S, map_app, filter_app, IH. simpl map at 2.
  destruct (Nat.Even_Odd_dec n) as [[m ->]|[m ->]].
  - rewrite (Nat.div2_succ_double m), (Nat.div2_double m).
    rewrite filter_cons_False, filter_nil; [by rewrite app_nil_r|].
    replace (Z.of_nat _) with (2 * Z.of_nat m)%Z by lia.
    rewrite Z.odd_mul. simpl. tauto.
  - replace (S (2 * m + 1)) with (2 * S m) by lia.
    rewrite Nat.div2_odd', Nat.div2_double.
    rewrite seq_S, map_app. f_equal. simpl.
    rewrite filter_cons_True.
    + rewrite filter_nil. f_equal. lia.
    + replace (Z.of_nat _) with (1 + 2 * Z.of_nat m)%Z by lia.
      by rewrite Z.odd_add_mul_2.
Qed.

Lemma div2_to_nat (z : Z) : Nat.div2 (Z.to_nat z) = Z.to_nat (z / 2).
Proof.
  destruct (Z.le_gt_cases 0 z) as [Hz|Hz].
  - rewrite Nat.div2_div. apply Nat2Z.inj.
    rewrite Nat2Z.inj_div, !Z2Nat.id; try lia. apply Z.div_pos; lia.
  - replace (Z.to_nat z) with 0 by lia.
    assert (z / 2 < 0)%Z by (apply Z.div_lt_upper_bound; lia).
    simpl. lia.
Qed.

Lemma range_even (n : Z) : range 0 n 2 = even_bonds n.
Proof.
  unfold range, even_bonds, bonds_upto. rewrite filter_even_upto.
  f_equal. f_equal.
  destruct (Z.le_gt_cases 0 n) as [Hn|Hn].
  - replace (Z.to_nat n + 1) with (Z.to_nat (n + 1)) by lia.
    rewrite div2_to_nat. f_equal. f_equal. lia.
  - replace (Z.to_nat n) with 0 by lia. simpl.
    assert ((n - 0 + 2 - 1) / 2 <= 0)%Z; [|lia].
    replace (n - 0 + 2 - 1)%Z with (n + 1)%Z by lia.
    apply Z.div_le_upper_bound; lia.
Qed.

Lemma range_odd (n : Z) : range 1 n 2 = odd_bonds n.
Proof.
  unfold range, odd_bonds, bonds_upto. rewrite filter_odd_upto.
  f_equal. f_equal. rewrite div2_to_nat. f_equal. f_equal. lia.
Qed.

Lemma length_even_odd_upto (n : nat) :
  length (filter (fun i => Z.even i) (map Z.of_nat (seq 0 n)))
  + length (filter (fun i => Z.odd i) (map Z.of_nat (seq 0 n))) = n.
Proof.
  induction n as [|n IH]; [done|].
  rewrite seq_S, map_app, !filter_app, !length_app. simpl map.
  destruct (Z.even (Z.of_nat n)) eqn:E.
  - rewrite filter_cons_True by (by rewrite E).
    rewrite (filter_cons_False (fun i => Z.odd i)).
    + rewrite !filter_nil. simpl. lia.
    + rewrite <- Z.negb_even. simpl. rewrite E. simpl. tauto.
  - rewrite filter_cons_False by (simpl; rewrite E; simpl; tauto).
    rewrite (filter_cons_True (fun i => Z.odd i)).
    + rewrite !filter_nil. simpl. lia.
    + rewrite <- Z.negb_even. simpl. by rewrite E.
Qed.

Lemma length_schedule (steps : nat) (n : Z) :
  length (schedule steps n) = steps * Z.to_nat n.
Proof.
  unfold schedule. induction steps as [|k IH]; [done|].
  simpl. rewrite length_app, IH, length_app.
  unfold even_bonds, odd_bonds, bonds_upto. rewrite length_even_odd_upto. lia.
Qed.

(** Case analysis on the next library call of a straight-line block. *)
Ltac case_result :=
  match goal with
  | H : ?r = _ |- context [match ?r with Ok _ => _ | Raise _ => _ end] =>
      rewrite H; simpl
  | |- context [match ?r with Ok _ => _ | Raise _ => _ end] =>
      lazymatch r with
      | context [match _ with _ => _ end] => fail
      | _ => let E := fresh "E" in destruct r eqn:E; simpl
      end
  | |- context [let '(_, _) := ?p in _] => is_var p; destruct p; simpl
  end.

Section MonadLemmas.
Context {SC : Scalar}.

Lemma bind_ret_tt (m : M unit) psi : bind m (fun _ => ret tt) psi = m psi.
Proof. unfold bind, ret. by destruct (m psi) as [[[]|e] psi']. Qed.

Lemma bind_assoc {A B C : Type} (m : M A) (f : A -> M B) (g : B -> M C) psi :
  bind (bind m f) g psi = bind m (fun a => bind (f a) g) psi.
Proof. unfold bind. by destruct (m psi) as [[a|e] psi']. Qed.

Lemma bind_ext {A B : Type} (m m' : M A) (f f' : A -> M B) psi :
  m psi = m' psi -> (forall a psi', f a psi' = f' a psi') ->
  bind m f psi = bind m' f' psi.
Proof.
  intros Hm Hf. unfold bind. rewrite Hm.
  destruct (m' psi) as [[a|e] psi']; [apply Hf|done].
Qed.

Lemma for_ext {A : Type} (xs : list A) (f g : A -> M unit) psi :
  (forall x psi', f x psi' = g x psi') -> for_ xs f psi = for_ xs g psi.
Proof.
  intros Hfg. revert psi. induction xs as [|x xs IH]; intros psi; [done|].
  simpl. apply bind_ext; [apply Hfg|]. intros _ psi'. apply IH.
Qed.

Lemma for_app {A : Type} (xs ys : list A) (f : A -> M unit) psi :
  for_ (xs ++ ys) f psi = bind (for_ xs f) (fun _ => for_ ys f) psi.
Proof.
  revert psi. induction xs as [|x xs IH]; intros psi; [done|].
  simpl. rewrite bind_assoc. apply bind_ext; [done|]. intros _ psi'. apply IH.
Qed.

(** A loop whose body ignores the loop variable runs the body once per
    element. *)
Lemma for_const {A B : Type} (xs : list A) (l : list B) (f : B -> M unit) psi :
  for_ xs (fun _ => for_ l f) psi = for_ (concat (repeat l (length xs))) f psi.
Proof.
  revert psi. induction xs as [|x xs IH]; intros psi; [done|].
  simpl. rewrite for_app. apply bind_ext; [done|]. intros _ psi'. apply IH.
Qed.

End MonadLemmas.

Section TebdLemmas.
Context {SC : Scalar}.
Variable split_truncate_theta :
  ndarray -> Z -> scalar -> result (ndarray * ndarray * ndarray).

Local Abbreviation update_bond := (update_bond split_truncate_theta).
Local Abbreviation run_TEBD := (run_TEBD split_truncate_theta).
Local Abbreviation bond_step := (bond_step split_truncate_theta).
Local Abbreviation new_tensors := (new_tensors split_truncate_theta).

Lemma get_theta2_pure i psi : snd (get_theta2 i psi) = psi.
Proof.
  unfold get_theta2, bind, read, lift. simpl.
  by destruct (mod_ (i + 1) (L psi)).
Qed.

(** The two half-sweeps of one time step visit the even bonds, then the odd
    ones. *)
Lemma half_sweeps (n : Z) (f : Z -> M unit) psi :
  for_ [0; 1]%Z (fun k => for_ (range k n 2) f) psi
  = for_ (even_bonds n ++ odd_bonds n) f psi.
Proof.
  simpl. rewrite range_even, range_odd, for_app.
  apply bind_ext; [done|]. intros _ psi'. apply bind_ret_tt.
Qed.

Lemma sweeps_schedule (N n : Z) (f : Z -> M unit) psi :
  for_ (range 0 N 1) (fun _ => for_ [0; 1]%Z (fun k => for_ (range k n 2) f)) psi
  = for_ (schedule (Z.to_nat N) n) f psi.
Proof.
  rewrite (for_ext _ _ (fun _ => for_ (even_bonds n ++ odd_bonds n) f))
    by (intros; apply half_sweeps).
  rewrite for_const, length_range_unit_step. done.
Qed.

(** [update_bond] is the four-stage bond update. *)
Lemma update_bond_stages i U chi eps psi :
  update_bond i U chi eps psi = bond_step i U chi eps psi.
Proof.
  unfold Tebd.update_bond, Stages.bond_step, set_bond, gauge, apply_gate.
  unfold get_theta2, bind, read, lift; simpl.
  repeat case_result; done.
Qed.

Lemma update_bond_new_tensors i U chi eps psi :
  update_bond i U chi eps psi
  = match new_tensors psi i U chi eps with
    | Ok (j, Bi, Sj, Bj) =>
        bind (set_Bs i Bi) (fun _ => bind (set_Ss j Sj) (fun _ => set_Bs j Bj)) psi
    | Raise e => (Raise e, psi)
    end.
Proof.
  unfold Tebd.update_bond, Stages.new_tensors, gated_theta, gauge, apply_gate.
  unfold get_theta2, bind, read, lift; simpl.
  repeat case_result; done.
Qed.

End TebdLemmas.

Section Stores.
Context {SC : Scalar}.
Variable split_truncate_theta :
  ndarray -> Z -> scalar -> result (ndarray * ndarray * ndarray).

Local Abbreviation update_bond := (update_bond split_truncate_theta).
Local Abbreviation run_TEBD := (run_TEBD split_truncate_theta).
Local Abbreviation bond_step := (bond_step split_truncate_theta).
Local Abbreviation new_tensors := (new_tensors split_truncate_theta).

Lemma wf_stored psi i j Bi Sj Bj : wf psi -> wf (stored psi i j Bi Sj Bj).
Proof. unfold wf, stored. simpl. by rewrite !length_insert. Qed.

(** On a well-formed chain the three stores go through together. *)
Lemma stores_wf psi i j Bi Sj Bj :
  wf psi -> (0 <= i < L psi)%Z -> (0 <= j < L psi)%Z ->
  bind (set_Bs i Bi) (fun _ => bind (set_Ss j Sj) (fun _ => set_Bs j Bj)) psi
  = (Ok tt, stored psi i j Bi Sj Bj).
Proof.
  intros [HB HS] Hi Hj. unfold bind, set_Bs, set_Ss, stored. simpl.
  rewrite (setitem_nonneg (Bs psi)) by lia.
  destruct (Nat.ltb_spec (Z.to_nat i) (length (Bs psi))); [|lia]. simpl.
  rewrite (setitem_nonneg (Ss psi)) by lia.
  destruct (Nat.ltb_spec (Z.to_nat j) (length (Ss psi))); [|lia]. simpl.
  rewrite setitem_nonneg by lia. rewrite length_insert.
  destruct (Nat.ltb_spec (Z.to_nat j) (length (Bs psi))); [|lia]. done.
Qed.

Lemma new_tensors_Ok psi i U chi eps j Bi Sj Bj :
  wf psi -> (0 <= i)%Z ->
  new_tensors psi i U chi eps = Ok (j, Bi, Sj, Bj) ->
  j = ((i + 1) mod L psi)%Z /\ (i < L psi)%Z /\ (0 <= j < L psi)%Z.
Proof.
  intros [HB HS] Hi. unfold Stages.new_tensors, mod_.
  destruct (Z.eqb_spec (L psi) 0) as [|HL]; [done|]. simpl.
  destruct (gated_theta psi i U) as [Ut|]; [simpl|done].
  destruct (split_truncate_theta Ut chi eps) as [[[A Sj'] Bj']|]; [simpl|done].
  destruct (getitem (Ss psi) i) as [Si|] eqn:ESi; [simpl|done].
  destruct (gauge Si A Sj') as [G|]; [simpl|done].
  intros [= <- <- <- <-].
  apply getitem_Ok_lookup in ESi; [|done]. apply lookup_lt_Some in ESi.
  split; [done|]. split; [lia|]. apply Z.mod_pos_bound. lia.
Qed.

(** A bond update on a well-formed chain: either the new tensors cannot be
    computed and [psi] is left alone, or all three stores are made. *)
Lemma update_bond_cases psi i U chi eps :
  wf psi -> (0 <= i)%Z ->
  update_bond i U chi eps psi
  = match new_tensors psi i U chi eps with
    | Ok (j, Bi, Sj, Bj) => (Ok tt, stored psi i j Bi Sj Bj)
    | Raise e => (Raise e, psi)
    end.
Proof.
  intros Hwf Hi. rewrite update_bond_new_tensors.
  destruct (new_tensors psi i U chi eps) as [[[[j Bi] Sj] Bj]|e] eqn:E; [|done].
  destruct (new_tensors_Ok _ _ _ _ _ _ _ _ _ Hwf Hi E) as (_ & ? & ?).
  apply stores_wf; [done|lia|done].
Qed.

Lemma run_TEBD_unfold U N chi eps psi :
  run_TEBD U N chi eps psi
  = bind (assert (Z.of_nat (length U) =? Nbonds_of psi)%Z)
         (fun _ => for_ (schedule (Z.to_nat N) (Nbonds_of psi))
                     (fun i => bind (lift (getitem U i))
                                 (fun Ui => bond_step i Ui chi eps))) psi.
Proof.
  unfold Tebd.run_TEBD. unfold bind at 1, read at 1. simpl.
  apply bind_ext; [done|]. intros _ psi'.
  etrans;
    [apply (sweeps_schedule N (Nbonds_of psi)
              (fun i => bind (lift (getitem U i))
                          (fun Ui => update_bond i Ui chi eps)))|].
  apply for_ext. intros i psi''.
  apply bind_ext; [done|]. intros Ui psi3. apply update_bond_stages.
Qed.

Lemma run_TEBD_bad_length U N chi eps psi :
  Z.of_nat (length U) <> Nbonds_of psi ->
  run_TEBD U N chi eps psi = (Raise AssertionError, psi).
Proof.
  intros H. unfold Tebd.run_TEBD, bind, read, assert, lift. simpl.
  by destruct (Z.eqb_spec (Z.of_nat (length U)) (Nbonds_of psi)).
Qed.

End Stores.

Section NumpyLemmas.
Context {SC : Scalar}.
Implicit Types (a b : ndarray) (shp : list nat).

Lemma map_nth_seq {A : Type} (l : list A) (d : A) :
  map (fun k => nth k l d) (seq 0 (length l)) = l.
Proof.
  apply (nth_ext _ _ d d).
  - by rewrite length_map, length_seq.
  - intros k Hk. rewrite length_map, length_seq in Hk.
    rewrite (nth_indep _ d (nth 0 l d)) by (by rewrite length_map, length_seq).
    rewrite (map_nth (fun k => nth k l d)), seq_nth by done. done.
Qed.

Lemma nth_map_seq {A : Type} (f : nat -> A) (n k : nat) (d : A) :
  k < n -> nth k (map f (seq 0 n)) d = f k.
Proof.
  intros Hk.
  rewrite (nth_indep _ d (f 0)) by (by rewrite length_map, length_seq).
  by rewrite (map_nth f), seq_nth.
Qed.

Lemma length_strides shp : length (strides shp) = length shp.
Proof. induction shp; simpl; congruence. Qed.

(** Unravelling a flat position and taking the row-major offset again gives
    the position back. *)
Lemma offset_unravel shp k :
  offset (strides shp) (unravel shp k) = k mod prod shp.
Proof.
  induction shp as [|n rest IH].
  - change (0 = k mod 1). by rewrite Nat.mod_1_r.
  - change ((k / prod rest) mod n * prod rest
            + offset (strides rest) (unravel rest k) = k mod (n * prod rest)).
    rewrite IH, (Nat.mul_comm n), Nat.Div0.mod_mul_r. lia.
Qed.

Lemma pick_seq (l : list nat) : pick l (seq 0 (length l)) = l.
Proof. apply map_nth_seq. Qed.

Lemma is_perm_seq n : is_perm n (seq 0 n) = true.
Proof.
  unfold is_perm. rewrite length_seq, Nat.eqb_refl. simpl.
  apply forallb_forall. intros k Hk. apply existsb_exists.
  exists k. split; [done|]. apply Nat.eqb_refl.
Qed.

(** Transposing with the identity permutation changes nothing. *)
Lemma transpose_id a : wf_nd a -> transpose a (seq 0 (ndim a)) = Ok a.
Proof.
  intros Hwf. unfold transpose, ndim. rewrite is_perm_seq, pick_seq.
  rewrite <- (length_strides (shape a)), pick_seq.
  unfold wf_nd, size in Hwf. destruct a as [shp dat]. simpl in *.
  f_equal. f_equal. rewrite <- Hwf.
  rewrite <- (map_nth_seq dat s_zero) at 2.
  apply map_ext_in. intros k Hk. apply in_seq in Hk.
  rewrite offset_unravel, <- Hwf, Nat.mod_small by lia. done.
Qed.

Lemma transpose_id' a axes :
  wf_nd a -> axes = seq 0 (length (shape a)) -> transpose a axes = Ok a.
Proof. intros Hwf ->. by apply transpose_id. Qed.

Lemma reshape_Ok a shp :
  prod shp = size a -> reshape a shp = Ok (mk_nd shp (data a)).
Proof. intros H. unfold reshape. by rewrite H, Nat.eqb_refl. Qed.

Lemma length_dot_data n k m (A B : list scalar) :
  length (dot_data n k m A B) = n * m.
Proof. unfold dot_data. by rewrite length_map, length_seq. Qed.

Lemma nth_dot_data n k m (A B : list scalar) p :
  p < n * m ->
  nth p (dot_data n k m A B) s_zero
  = ssum (map (fun t => s_mul (nth (p / m * k + t) A s_zero)
                              (nth (t * m + p mod m) B s_zero)) (seq 0 k)).
Proof. intros Hp. unfold dot_data. by rewrite nth_map_seq. Qed.

(** A sum with a non-finite term is non-finite, whatever the other terms. *)
Lemma fold_add_nonfinite (l : list scalar) (acc : scalar) :
  is_finite acc = false \/ (exists x, In x l /\ is_finite x = false) ->
  is_finite (fold_left s_add l acc) = false.
Proof.
  revert acc. induction l as [|y l IH]; intros acc [Hacc|(x & Hin & Hx)]; simpl.
  - done.
  - destruct Hin.
  - apply IH. left. by apply add_nonfinite_l.
  - destruct Hin as [->|Hin].
    + apply IH. left. by apply add_nonfinite_r.
    + apply IH. right. eauto.
Qed.

Lemma ssum_nonfinite (l : list scalar) x :
  In x l -> is_finite x = false -> is_finite (ssum l) = false.
Proof. intros. apply fold_add_nonfinite. right. eauto. Qed.

(** An entry of a matrix product is non-finite as soon as one of the
    entries of the left factor that enter it is. *)
Lemma dot_data_nonfinite_l n k m (A B : list scalar) p t :
  p < n * m -> t < k ->
  is_finite (nth (p / m * k + t) A s_zero) = false ->
  is_finite (nth p (dot_data n k m A B) s_zero) = false.
Proof.
  intros Hp Ht HA. rewrite nth_dot_data by done.
  eapply ssum_nonfinite.
  - apply in_map_iff. exists t. split; [reflexivity|]. apply in_seq. lia.
  - by apply mul_nonfinite_l.
Qed.

Lemma diag_vector (v : ndarray) n :
  shape v = [n] ->
  diag v = Ok (mk_nd [n; n]
                 (map (fun k => if k / n =? k mod n then nth (k / n) (data v) s_zero
                                else s_zero) (seq 0 (n * n)))).
Proof. intros H. unfold diag. by rewrite H. Qed.

Lemma nth_diag_data (l : list scalar) n r :
  r < n ->
  nth (r * n + r)
      (map (fun k => if k / n =? k mod n then nth (k / n) l s_zero else s_zero)
           (seq 0 (n * n))) s_zero
  = nth r l s_zero.
Proof.
  intros Hr. rewrite nth_map_seq by nia.
  assert ((r * n + r) / n = r) as ->
    by (rewrite Nat.div_add_l, Nat.div_small by lia; lia).
  assert ((r * n + r) mod n = r) as ->
    by (rewrite Nat.add_comm, Nat.Div0.mod_add; apply Nat.mod_small; lia).
  by rewrite Nat.eqb_refl.
Qed.

(** [tensordot(M, A, axes=[1, 0])] for a matrix [M] and a three-leg tensor
    [A]: the matrix product of [M] with [A] flattened to [n x (d c)]. *)
Lemma tensordot_matrix_left (D A : ndarray) n d c :
  shape D = [n; n] -> wf_nd D -> shape A = [n; d; c] -> wf_nd A ->
  tensordot D A [1] [0]
  = Ok (mk_nd [n; d; c] (dot_data n n (d * c) (data D) (data A))).
Proof.
  intros HD HwD HA HwA. unfold tensordot, ndim. rewrite HD, HA. simpl.
  rewrite Nat.eqb_refl. simpl.
  change (notin 3 [0]) with [1; 2].
  rewrite (transpose_id' D [0; 1]) by (done || by rewrite HD). simpl.
  rewrite (reshape_Ok D) by (unfold size; rewrite HD; simpl; lia). simpl.
  rewrite (transpose_id' A [0; 1; 2]) by (done || by rewrite HA). simpl.
  rewrite (reshape_Ok A) by (unfold size; rewrite HA; simpl; lia). simpl.
  unfold dot. simpl. rewrite Nat.eqb_refl. unfold rbind.
  rewrite reshape_Ok by (unfold size; simpl; lia). simpl.
  by rewrite !Nat.mul_1_r.
Qed.

(** [tensordot(G, M, axes=[2, 0])] for a three-leg tensor [G] and a matrix
    [M]: the matrix product of [G] flattened to [(n d) x c] with [M]. *)
Lemma tensordot_matrix_right (G DS : ndarray) n d c :
  shape G = [n; d; c] -> wf_nd G -> shape DS = [c; c] -> wf_nd DS ->
  tensordot G DS [2] [0]
  = Ok (mk_nd [n; d; c] (dot_data (n * d) c c (data G) (data DS))).
Proof.
  intros HG HwG HD HwD. unfold tensordot, ndim. rewrite HG, HD. simpl.
  rewrite Nat.eqb_refl. simpl.
  change (notin 3 [2]) with [0; 1]. change (notin 2 [0]) with [1].
  rewrite (transpose_id' G [0; 1; 2]) by (done || by rewrite HG). simpl.
  rewrite (reshape_Ok G) by (unfold size; rewrite HG; simpl; lia). simpl.
  rewrite (transpose_id' DS [0; 1]) by (done || by rewrite HD). simpl.
  rewrite (reshape_Ok DS) by (unfold size; rewrite HD; simpl; lia). simpl.
  unfold dot. simpl. rewrite Nat.eqb_refl. unfold rbind.
  rewrite reshape_Ok by (unfold size; simpl; lia). simpl.
  by rewrite !Nat.mul_1_r.
Qed.

End NumpyLemmas.

Section Gauge.
Context {SC : Scalar}.

Lemma flat_index_bound a b x y : x < a -> y < b -> x * b + y < a * b.
Proof.
  intros Hx Hy. apply Nat.lt_le_trans with (S x * b); [simpl; lia|].
  apply Nat.mul_le_mono_r. lia.
Qed.

Lemma wf_nd_dot_data3 n d c k (A B : list scalar) :
  wf_nd (mk_nd [n; d; c] (dot_data n k (d * c) A B)).
Proof. unfold wf_nd, size. simpl. rewrite length_dot_data. lia. Qed.

Lemma wf_nd_diag_data n (f : nat -> scalar) :
  wf_nd (mk_nd [n; n] (map f (seq 0 (n * n)))).
Proof. unfold wf_nd, size. simpl. rewrite length_map, length_seq. lia. Qed.

(** The gauge step written out on buffers. *)
Lemma gauge_data (Si A Sj : ndarray) n d c :
  shape Si = [n] -> shape A = [n; d; c] -> wf_nd A -> shape Sj = [c] ->
  exists Dd DSd,
    diag (pow_m1 Si) = Ok (mk_nd [n; n] Dd) /\
    diag Sj = Ok (mk_nd [c; c] DSd) /\
    (forall r, r < n -> nth (r * n + r) Dd s_zero = nth r (map s_inv (data Si)) s_zero) /\
    gauge Si A Sj
    = Ok (mk_nd [n; d; c]
            (dot_data (n * d) c c (dot_data n n (d * c) Dd (data A)) DSd)).
Proof.
  intros HSi HA HwA HSj.
  eexists _, _. split; [|split; [|split]].
  - by apply diag_vector.
  - by apply diag_vector.
  - intros r Hr. by apply nth_diag_data.
  - unfold gauge.
    rewrite (diag_vector (pow_m1 Si) n), (diag_vector Sj c) by done.
    cbn [rbind].
    rewrite (tensordot_matrix_left _ A n d c);
      [|done|apply wf_nd_diag_data|done|done].
    cbn [rbind].
    rewrite (tensordot_matrix_right _ _ n d c);
      [done|done|apply wf_nd_dot_data3|done|apply wf_nd_diag_data].
Qed.

(** A zero in the old singular values makes a whole slice of the gauged
    tensor non-finite. *)
Lemma gauge_nonfinite (Si A Sj : ndarray) n d c r :
  shape Si = [n] -> wf_nd Si -> shape A = [n; d; c] -> wf_nd A ->
  shape Sj = [c] ->
  r < n -> is_zero (nth r (data Si) s_zero) = true ->
  exists G, gauge Si A Sj = Ok G /\ shape G = [n; d; c] /\
    forall p t, p < d -> t < c -> is_finite (item G [r; p; t]) = false.
Proof.
  intros HSi HwSi HA HwA HSj Hr Hzero.
  destruct (gauge_data Si A Sj n d c HSi HA HwA HSj)
    as (Dd & DSd & _ & _ & HD & ->).
  eexists. split; [done|]. split; [done|]. intros p t Hp Ht.
  unfold item. cbn [shape data strides offset prod fold_right].
  assert (r * (d * (c * 1)) + (p * (c * 1) + (t * 1 + 0)) = (r * d + p) * c + t)
    as -> by (rewrite !Nat.mul_1_r; nia).
  assert (r * d + p < n * d) as Hrow by (by apply flat_index_bound).
  assert ((r * d + p) * c + t < n * d * c) as Hlt by (by apply flat_index_bound).
  apply (dot_data_nonfinite_l _ _ _ _ _ _ 0); [done|lia|].
  assert (((r * d + p) * c + t) / c = r * d + p) as ->
    by (symmetry; apply (Nat.div_unique _ _ _ t); lia).
  rewrite Nat.add_0_r.
  assert (p * c < d * c) as Hpc by (apply Nat.mul_lt_mono_pos_r; lia).
  apply (dot_data_nonfinite_l _ _ _ _ _ _ r); [|done|].
  { replace ((r * d + p) * c) with (r * (d * c) + p * c) by nia.
    by apply flat_index_bound. }
  assert ((r * d + p) * c / (d * c) = r) as ->
    by (symmetry; apply (Nat.div_unique _ _ _ (p * c)); [done|nia]).
  rewrite HD by done.
  unfold wf_nd, size in HwSi. rewrite HSi in HwSi. simpl in HwSi.
  rewrite (nth_indep _ s_zero (s_inv s_zero)) by (rewrite length_map; lia).
  rewrite (map_nth s_inv). by apply inv_zero_nonfinite.
Qed.

End Gauge.

Section Footprint.
Context {SC : Scalar}.
Variable split_truncate_theta :
  ndarray -> Z -> scalar -> result (ndarray * ndarray * ndarray).

Local Abbreviation update_bond := (update_bond split_truncate_theta).
Local Abbreviation new_tensors := (new_tensors split_truncate_theta).

Lemma gated_theta_Ok_L psi i U Ut : gated_theta psi i U = Ok Ut -> L psi <> 0%Z.
Proof.
  unfold gated_theta, get_theta2, bind, read, lift, mod_. simpl.
  destruct (Z.eqb_spec (L psi) 0); [done|]. done.
Qed.

(** The new tensors of bond [i] depend on the chain through [L], [S[i]],
    [B[i]] and [B[j]] only. *)
Lemma new_tensors_ext psi psi' i U chi eps :
  L psi' = L psi ->
  getitem (Ss psi') i = getitem (Ss psi) i ->
  getitem (Bs psi') i = getitem (Bs psi) i ->
  getitem (Bs psi') ((i + 1) mod L psi) = getitem (Bs psi) ((i + 1) mod L psi) ->
  new_tensors psi' i U chi eps = new_tensors psi i U chi eps.
Proof.
  intros HL HS HB HBj.
  unfold Stages.new_tensors, gated_theta, get_theta2, bind, read, lift, mod_.
  simpl. rewrite HL. destruct (Z.eqb_spec (L psi) 0); [done|]. simpl.
  by rewrite HS, HB, HBj.
Qed.

Lemma getitem_insert_ne {A : Type} (l : list A) (i k : Z) (x : A) :
  (0 <= i)%Z -> (0 <= k)%Z -> i <> k ->
  getitem (<[Z.to_nat k := x]> l) i = getitem l i.
Proof.
  intros Hi Hk Hne. rewrite !getitem_nonneg by done.
  rewrite list_lookup_insert_ne; [done|lia].
Qed.

Lemma new_tensors_stored psi i i' j' U chi eps Bi' Sj' Bj' :
  (0 <= i)%Z -> (0 <= i')%Z -> (0 <= j')%Z -> (0 <= (i + 1) mod L psi)%Z ->
  i <> i' -> i <> j' -> ((i + 1) mod L psi)%Z <> i' -> ((i + 1) mod L psi)%Z <> j' ->
  new_tensors (stored psi i' j' Bi' Sj' Bj') i U chi eps = new_tensors psi i U chi eps.
Proof.
  intros. apply new_tensors_ext; unfold stored; simpl; [done|..];
    rewrite ?getitem_insert_ne; done.
Qed.

Lemma stored_commute psi i j i' j' Bi Sj Bj Bi' Sj' Bj' :
  (0 <= i)%Z -> (0 <= i')%Z -> (0 <= j)%Z -> (0 <= j')%Z ->
  i <> i' -> i <> j' -> j <> i' -> j <> j' ->
  stored (stored psi i j Bi Sj Bj) i' j' Bi' Sj' Bj'
  = stored (stored psi i' j' Bi' Sj' Bj') i j Bi Sj Bj.
Proof.
  intros. unfold stored. simpl. f_equal.
  - rewrite (list_insert_insert_ne _ (Z.to_nat i') (Z.to_nat j)) by lia.
    rewrite (list_insert_insert_ne _ (Z.to_nat i') (Z.to_nat i)) by lia.
    rewrite (list_insert_insert_ne _ (Z.to_nat j') (Z.to_nat j)) by lia.
    rewrite (list_insert_insert_ne _ (Z.to_nat j') (Z.to_nat i)) by lia.
    done.
  - apply list_insert_insert_ne. lia.
Qed.

(** Two distinct bonds of one parity class share no site, unless the chain
    is infinite with an odd number of sites. *)
Lemma bond_sites_disjoint psi i i' :
  wf psi ->
  (0 <= i < Nbonds_of psi)%Z -> (0 <= i' < Nbonds_of psi)%Z ->
  i <> i' -> Z.even i = Z.even i' ->
  bc psi = "finite"%string \/ Z.even (L psi) = true ->
  let j := ((i + 1) mod L psi)%Z in
  let j' := ((i' + 1) mod L psi)%Z in
  (0 <= j)%Z /\ (0 <= j')%Z /\ i <> j' /\ j <> i' /\ j <> j'.
Proof.
  intros [HB _] Hi Hi' Hne Hpar Hbc. unfold Nbonds_of in *.
  assert (exists k, i - i' = 2 * k)%Z as [k Hk].
  { apply Z.even_spec. rewrite Z.even_sub, Hpar. by destruct (Z.even i'). }
  destruct Hbc as [Hfin|Hev].
  - rewrite Hfin in *. simpl in *.
    rewrite !Z.mod_small by lia. lia.
  - apply Z.even_spec in Hev as [m Hm].
    destruct (String.eqb (bc psi) "finite").
    + rewrite !Z.mod_small by lia. lia.
    + destruct (Z.eq_dec (i + 1)%Z (L psi)) as [E|E];
        destruct (Z.eq_dec (i' + 1)%Z (L psi)) as [E'|E'];
        rewrite ?E, ?E', ?Z_mod_same_full;
        rewrite ?(Z.mod_small (i + 1)%Z), ?(Z.mod_small (i' + 1)%Z) by lia; lia.
Qed.

End Footprint.

Section CalcLemmas.
Context {SC : Scalar}.
Variable expm : ndarray -> result ndarray.

Local Abbreviation calc_U_bonds_loop := (calc_U_bonds_loop expm).
Local Abbreviation gate_of := (Stages.gate_of expm).

(** The loop appends one gate per Hamiltonian, in order. *)
Lemma calc_U_bonds_loop_spec d dt Hs acc Us :
  calc_U_bonds_loop d dt Hs acc = Ok Us ->
  exists Us', Us = acc ++ Us' /\ Forall2 (gate_of d dt) Hs Us'.
Proof.
  revert acc. induction Hs as [|H Hs IH]; intros acc; simpl.
  - intros [= <-]. exists []. by rewrite app_nil_r.
  - destruct (reshape H [d * d; d * d]) as [Hm|] eqn:E1; [simpl|done].
    destruct (expm (scale (s_neg dt) Hm)) as [E|] eqn:E2; [simpl|done].
    destruct (reshape E [d; d; d; d]) as [U4|] eqn:E3; [simpl|done].
    intros HUs. destruct (IH _ HUs) as (Us' & -> & HF).
    exists (U4 :: Us'). split; [by rewrite <- app_assoc|].
    constructor; [|done]. by exists Hm, E.
Qed.

Lemma gate_of_size d dt H U : gate_of d dt H U -> size H = d ^ 4.
Proof.
  intros (Hm & E & H1 & _). unfold reshape in H1.
  destruct (Nat.eqb_spec (prod [d * d; d * d]) (size H)) as [Heq|]; [|done].
  rewrite <- Heq. simpl. lia.
Qed.

Lemma gate_of_shape d dt H U : gate_of d dt H U -> shape U = [d; d; d; d].
Proof.
  intros (Hm & E & _ & _ & H3). unfold reshape in H3.
  destruct (prod [d; d; d; d] =? size E); [|done]. by injection H3 as <-.
Qed.

Hypothesis expm_square :
  forall (M : ndarray) (n : nat),
    shape M = [n; n] -> exists E, expm M = Ok E /\ shape E = [n; n].

Lemma gate_of_total d dt H :
  shape H = [d; d; d; d] -> exists U, gate_of d dt H U.
Proof.
  intros HH. unfold Stages.gate_of.
  assert (reshape H [d * d; d * d] = Ok (mk_nd [d * d; d * d] (data H))) as E1.
  { apply reshape_Ok. unfold size. rewrite HH. simpl. lia. }
  destruct (expm_square (scale (s_neg dt) (mk_nd [d * d; d * d] (data H))) (d * d))
    as (E & E2 & HE); [done|].
  assert (reshape E [d; d; d; d] = Ok (mk_nd [d; d; d; d] (data E))) as E3.
  { apply reshape_Ok. unfold size. rewrite HE. simpl. lia. }
  eauto 10.
Qed.

Lemma calc_U_bonds_loop_total d dt Hs acc :
  Forall (fun H => shape H = [d; d; d; d]) Hs ->
  exists Us, calc_U_bonds_loop d dt Hs acc = Ok Us.
Proof.
  intros HF. revert acc. induction HF as [|H Hs HH _ IH]; intros acc; simpl.
  - eauto.
  - destruct (gate_of_total d dt H HH) as (U & Hm & E & -> & E2 & E3). simpl.
    rewrite E2. simpl. rewrite E3. simpl. apply IH.
Qed.

End CalcLemmas.

(* ===================================================================== *)
(** ** The properties of the specification *)
(* ===================================================================== *)

Section Claims.
Context {SC : Scalar}.
Variable expm : ndarray -> result ndarray.
Variable split_truncate_theta :
  ndarray -> Z -> scalar -> result (ndarray * ndarray * ndarray).

Local Abbreviation update_bond := (update_bond split_truncate_theta).
Local Abbreviation run_TEBD := (run_TEBD split_truncate_theta).
Local Abbreviation bond_step := (bond_step split_truncate_theta).
Local Abbreviation new_tensors := (new_tensors split_truncate_theta).
Local Abbreviation calc_U_bonds := (calc_U_bonds expm).
Local Abbreviation gate_of := (Stages.gate_of expm).

(** C1.  [run_TEBD] checks the number of gates and then runs [N_steps]
    time steps; each step visits the even bonds of [0 .. Nbonds-1] in
    increasing order and then the odd ones, and at each bond [i] it does
    the four-stage update with [U_bonds[i]], [chi_max] and [eps]:
    [get_theta2], contraction with the gate, truncated decomposition,
    installation of the factors.  All in all [N_steps * Nbonds] bond
    updates are scheduled. *)
Theorem run_TEBD_sweeps (U_bonds : list ndarray) (N_steps chi_max : Z)
    (eps : scalar) (psi : MPS) :
  run_TEBD U_bonds N_steps chi_max eps psi
  = bind (assert (Z.of_nat (length U_bonds) =? Nbonds_of psi)%Z)
      (fun _ =>
         for_ (concat (repeat (even_bonds (Nbonds_of psi) ++ odd_bonds (Nbonds_of psi))
                         (Z.to_nat N_steps)))
           (fun i =>
              bind (lift (getitem U_bonds i))
                (fun U =>
                   bind (get_theta2 i) (fun theta =>
                   bind (lift (apply_gate U theta)) (fun Utheta =>
                   bind (lift (split_truncate_theta Utheta chi_max eps)) (fun ASB =>
                   set_bond i ASB.1.1 ASB.1.2 ASB.2)))))) psi
  /\ length (concat (repeat (even_bonds (Nbonds_of psi) ++ odd_bonds (Nbonds_of psi))
                       (Z.to_nat N_steps)))
     = Z.to_nat N_steps * Z.to_nat (Nbonds_of psi).
Proof.
  split; [|apply length_schedule].
  rewrite run_TEBD_unfold. apply bind_ext; [done|]. intros _ psi1.
  apply for_ext. intros i psi2. apply bind_ext; [done|]. intros U psi3.
  unfold Stages.bond_step. apply bind_ext; [done|]. intros theta psi4.
  apply bind_ext; [done|]. intros Utheta psi5.
  apply bind_ext; [done|]. by intros [[A Sj] Bj] psi6.
Qed.

(** C2.  A bond update that completes on bond [i] has stored, with
    [(A, Sj, Bj)] the truncated decomposition of the gated two-site tensor:
    at site [i] the tensor [diag(S[i]**-1) . A . diag(Sj)], built from the
    previous [S[i]]; at [j = (i+1) mod L] the vector [Sj] and the tensor
    [Bj]. *)
Theorem update_bond_installs (psi psi' : MPS) (i : Z) (U : ndarray)
    (chi_max : Z) (eps : scalar) :
  wf psi -> (0 <= i)%Z ->
  update_bond i U chi_max eps psi = (Ok tt, psi') ->
  exists Utheta A Sj Bj Si D Gi DS G,
    gated_theta psi i U = Ok Utheta /\
    split_truncate_theta Utheta chi_max eps = Ok (A, Sj, Bj) /\
    Ss psi !! Z.to_nat i = Some Si /\
    diag (pow_m1 Si) = Ok D /\
    tensordot D A [1] [0] = Ok Gi /\
    diag Sj = Ok DS /\
    tensordot Gi DS [2] [0] = Ok G /\
    let j := ((i + 1) mod L psi)%Z in
    psi' = stored psi i j G Sj Bj /\
    Ss psi' !! Z.to_nat j = Some Sj /\
    Bs psi' !! Z.to_nat j = Some Bj /\
    (i <> j -> Bs psi' !! Z.to_nat i = Some G).
Proof.
  intros Hwf Hi Hup. rewrite update_bond_cases in Hup by done.
  destruct (new_tensors psi i U chi_max eps) as [[[[j G] Sj] Bj]|e] eqn:E;
    [|done].
  injection Hup as <-.
  destruct (new_tensors_Ok _ _ _ _ _ _ _ _ _ _ Hwf Hi E) as (Hj & HiL & HjL).
  destruct Hwf as [HB HS].
  unfold Stages.new_tensors in E.
  destruct (mod_ (i + 1) (L psi)) as [j0|]; [simpl in E|done].
  destruct (gated_theta psi i U) as [Utheta|]; [simpl in E|done].
  destruct (split_truncate_theta Utheta chi_max eps) as [[[A Sj'] Bj']|] eqn:Esp;
    [simpl in E|done].
  destruct (getitem (Ss psi) i) as [Si|] eqn:ESi; [simpl in E|done].
  unfold gauge in E.
  destruct (diag (pow_m1 Si)) as [D|] eqn:ED; [simpl in E|done].
  destruct (tensordot D A [1] [0]) as [Gi|] eqn:EGi; [simpl in E|done].
  destruct (diag Sj') as [DS|] eqn:EDS; [simpl in E|done].
  destruct (tensordot Gi DS [2] [0]) as [G'|] eqn:EG; [simpl in E|done].
  injection E as -> -> -> ->.
  apply getitem_Ok_lookup in ESi; [|done].
  exists Utheta, A, Sj, Bj, Si, D, Gi, DS, G.
  repeat (split; [done|]). rewrite <- Hj. cbn zeta.
  split; [done|]. unfold stored. simpl.
  split; [apply list_lookup_insert_eq; lia|].
  split; [apply list_lookup_insert_eq; rewrite length_insert; lia|].
  intros Hne. rewrite list_lookup_insert_ne by lia.
  apply list_lookup_insert_eq. lia.
Qed.

(** C3.  The number of bonds is [L - 1] for a finite chain and [L] for an
    infinite one, and a gate list of any other length makes [run_TEBD]
    raise with the chain exactly as it was. *)
Theorem run_TEBD_length_check (U_bonds : list ndarray) (N_steps chi_max : Z)
    (eps : scalar) (psi : MPS) :
  (bc psi = "finite"%string -> Nbonds_of psi = (L psi - 1)%Z) /\
  (bc psi = "infinite"%string -> Nbonds_of psi = L psi) /\
  (Z.of_nat (length U_bonds) <> Nbonds_of psi ->
   run_TEBD U_bonds N_steps chi_max eps psi = (Raise AssertionError, psi)).
Proof.
  split; [|split].
  - unfold Nbonds_of. by intros ->.
  - unfold Nbonds_of. by intros ->.
  - apply run_TEBD_bad_length.
Qed.

(** C4.  For a non-empty list of bond Hamiltonians of shape [(d, d, d, d)],
    [calc_U_bonds] returns a list of the same length whose [i]-th element
    is [expm(-dt * H_bonds[i])], the exponential being taken on the
    [(d*d, d*d)] reshape and the result reshaped to [(d, d, d, d)].  The
    library routine [expm] is assumed to return a matrix of the shape of
    its square argument. *)
Theorem calc_U_bonds_gates (H_bonds : list ndarray) (d : nat) (dt : scalar) :
  (forall (M : ndarray) (n : nat),
      shape M = [n; n] -> exists E, expm M = Ok E /\ shape E = [n; n]) ->
  H_bonds <> [] ->
  Forall (fun H => shape H = [d; d; d; d]) H_bonds ->
  exists U_bonds,
    calc_U_bonds H_bonds dt = Ok U_bonds /\
    length U_bonds = length H_bonds /\
    forall (i : nat) (H : ndarray),
      H_bonds !! i = Some H ->
      exists Hm E U,
        reshape H [d * d; d * d] = Ok Hm /\
        expm (scale (s_neg dt) Hm) = Ok E /\
        reshape E [d; d; d; d] = Ok U /\
        shape U = [d; d; d; d] /\
        U_bonds !! i = Some U.
Proof.
  intros Hexpm Hne HF.
  destruct H_bonds as [|H0 Hs]; [done|].
  unfold Tebd.calc_U_bonds. cbn [getitem length]. simpl.
  assert (shape H0 = [d; d; d; d]) as HH0 by (by inversion HF).
  rewrite HH0. simpl.
  destruct (calc_U_bonds_loop_total expm Hexpm d dt (H0 :: Hs) [] HF) as [Us HUs].
  simpl in HUs. rewrite HUs.
  destruct (calc_U_bonds_loop_spec expm d dt (H0 :: Hs) [] Us HUs)
    as (Us' & -> & HF2).
  simpl. exists Us'. split; [done|]. split.
  - exact (eq_sym (Forall2_length _ _ _ HF2)).
  - intros i H Hi.
    destruct (Forall2_lookup_l _ _ _ _ _ HF2 Hi) as (U & HU & Hg).
    pose proof (gate_of_shape expm d dt H U Hg) as HsU.
    destruct Hg as (Hm & E & ? & ? & ?). by exists Hm, E, U.
Qed.

(** C5, as the code has it.  A finite chain of one site has no bond:
    [run_TEBD] leaves it as it is, and completes exactly when no gate is
    given.  An infinite chain of one site has one bond, bond 0 from the
    site to itself, and every time step updates it. *)
Theorem run_TEBD_single_site (U_bonds : list ndarray) (U0 : ndarray)
    (N_steps chi_max : Z) (eps : scalar) (psi : MPS) :
  L psi = 1%Z ->
  (bc psi = "finite"%string ->
   Nbonds_of psi = 0%Z /\
   snd (run_TEBD U_bonds N_steps chi_max eps psi) = psi /\
   (fst (run_TEBD U_bonds N_steps chi_max eps psi) = Ok tt <-> U_bonds = [])) /\
  (bc psi = "infinite"%string ->
   Nbonds_of psi = 1%Z /\
   run_TEBD [U0] N_steps chi_max eps psi
   = for_ (repeat 0%Z (Z.to_nat N_steps))
       (fun i => update_bond i U0 chi_max eps) psi).
Proof.
  intros HL. split; intros Hbc.
  - assert (Nbonds_of psi = 0%Z) as HN
      by (unfold Nbonds_of; rewrite Hbc, HL; done).
    split; [done|].
    destruct U_bonds as [|U Us].
    + rewrite run_TEBD_unfold, HN.
      assert (schedule (Z.to_nat N_steps) 0 = []) as ->.
      { apply length_zero_iff_nil. rewrite length_schedule. simpl. lia. }
      done.
    + rewrite run_TEBD_bad_length by (rewrite HN; simpl; lia).
      simpl. split; [done|]. split; discriminate.
  - assert (Nbonds_of psi = 1%Z) as HN
      by (unfold Nbonds_of; rewrite Hbc, HL; done).
    split; [done|].
    rewrite run_TEBD_unfold, HN.
    change (bind (assert (Z.of_nat (length [U0]) =? 1)%Z) ?k psi) with (k tt psi).
    cbv beta. generalize psi. clear.
    induction (Z.to_nat N_steps) as [|n IH]; intros psi; [done|].
    change (schedule (S n) 1) with (0%Z :: schedule n 1).
    cbn [for_ repeat]. apply bind_ext; [|intros _ psi'; apply IH].
    rewrite update_bond_stages. reflexivity.
Qed.

(** C6.  On a bond [i] of a chain with one [B] and one [S] per site, a bond
    update either raises and leaves the chain exactly as it was, or
    completes and changes nothing but the tensors of the sites [i] and
    [j = (i+1) mod L]. *)
Theorem update_bond_frame (psi : MPS) (i : Z) (U : ndarray) (chi_max : Z)
    (eps : scalar) :
  wf psi -> (0 <= i)%Z ->
  match update_bond i U chi_max eps psi with
  | (Raise _, psi') => psi' = psi
  | (Ok _, psi') =>
      L psi' = L psi /\ bc psi' = bc psi /\
      length (Bs psi') = length (Bs psi) /\
      length (Ss psi') = length (Ss psi) /\
      forall k : nat,
        Z.of_nat k <> i -> Z.of_nat k <> ((i + 1) mod L psi)%Z ->
        Bs psi' !! k = Bs psi !! k /\ Ss psi' !! k = Ss psi !! k
  end.
Proof.
  intros Hwf Hi. rewrite update_bond_cases by done.
  destruct (new_tensors psi i U chi_max eps) as [[[[j G] Sj] Bj]|e] eqn:E;
    [|done].
  destruct (new_tensors_Ok _ _ _ _ _ _ _ _ _ _ Hwf Hi E) as (<- & HiL & HjL).
  unfold stored. simpl. rewrite !length_insert.
  repeat (split; [done|]). intros k Hki Hkj.
  rewrite !list_lookup_insert_ne by lia. done.
Qed.

(** C7, as the code has it.  Two distinct bonds of one parity class, on a
    finite chain or on an infinite chain with an even number of sites,
    work on disjoint pairs of sites, and their updates commute: if one
    order completes, so does the other, with the same final chain. *)
Theorem same_parity_updates_commute (psi psi1 psi12 : MPS) (i i' : Z)
    (U U' : ndarray) (chi_max : Z) (eps : scalar) :
  wf psi ->
  (0 <= i < Nbonds_of psi)%Z -> (0 <= i' < Nbonds_of psi)%Z ->
  i <> i' -> Z.even i = Z.even i' ->
  bc psi = "finite"%string \/ Z.even (L psi) = true ->
  (forall s, In s (bond_sites psi i) -> ~ In s (bond_sites psi i')) /\
  (update_bond i U chi_max eps psi = (Ok tt, psi1) ->
   update_bond i' U' chi_max eps psi1 = (Ok tt, psi12) ->
   exists psi2,
     update_bond i' U' chi_max eps psi = (Ok tt, psi2) /\
     update_bond i U chi_max eps psi2 = (Ok tt, psi12)).
Proof.
  intros Hwf Hi Hi' Hne Hpar Hbc.
  destruct (bond_sites_disjoint psi i i' Hwf Hi Hi' Hne Hpar Hbc)
    as (Hj & Hj' & H1 & H2 & H3).
  split.
  - unfold bond_sites. simpl. intros s [<-|[<-|[]]] [?|[?|[]]]; congruence.
  - intros Hup1 Hup2.
    rewrite update_bond_cases in Hup1 by (done || lia).
    destruct (new_tensors psi i U chi_max eps) as [[[[j G] Sj] Bj]|] eqn:E;
      [|done].
    injection Hup1 as <-.
    destruct (new_tensors_Ok _ _ _ _ _ _ _ _ _ _ Hwf (proj1 Hi) E) as (-> & _ & _).
    rewrite update_bond_cases in Hup2 by (by apply wf_stored || lia).
    rewrite new_tensors_stored in Hup2 by (done || lia).
    destruct (new_tensors psi i' U' chi_max eps) as [[[[j' G'] Sj'] Bj']|] eqn:E';
      [|done].
    injection Hup2 as <-.
    destruct (new_tensors_Ok _ _ _ _ _ _ _ _ _ _ Hwf (proj1 Hi') E') as (-> & _ & _).
    eexists. split.
    + rewrite update_bond_cases by (done || lia). by rewrite E'.
    + rewrite update_bond_cases by (by apply wf_stored || lia).
      rewrite new_tensors_stored by (done || lia). rewrite E.
      f_equal. symmetry. apply stored_commute; done || lia.
Qed.

(** C8.  With a gate list of the right length and [N_steps = 0],
    [run_TEBD] returns with the chain it was given. *)
Theorem run_TEBD_no_steps (U_bonds : list ndarray) (chi_max : Z) (eps : scalar)
    (psi : MPS) :
  Z.of_nat (length U_bonds) = Nbonds_of psi ->
  run_TEBD U_bonds 0 chi_max eps psi = (Ok tt, psi).
Proof.
  intros H. unfold Tebd.run_TEBD, bind, read, assert, lift, ret. simpl.
  by destruct (Z.eqb_spec (Z.of_nat (length U_bonds)) (Nbonds_of psi)).
Qed.

(** C9.  Nothing in [update_bond] looks at the entries of [S[i]] before
    inverting them.  If entry [r] of [S[i]] is zero and the shapes fit
    ([S[i]] of length [n], [A] of shape [(n, d, c)], [Sj] of length [c]),
    the update completes without raising, and the tensor it stores by
    [psi.Bs[i] = ...] is non-finite at every position [(r, p, t)]; that
    tensor is the final [B[i]] whenever [j] differs from [i]. *)
Theorem update_bond_zero_singular_value (psi : MPS) (i : Z) (U : ndarray)
    (chi_max : Z) (eps : scalar) (Utheta A Sj Bj Si : ndarray) (n d c r : nat) :
  wf psi -> (0 <= i)%Z ->
  gated_theta psi i U = Ok Utheta ->
  split_truncate_theta Utheta chi_max eps = Ok (A, Sj, Bj) ->
  Ss psi !! Z.to_nat i = Some Si ->
  shape Si = [n] -> wf_nd Si ->
  shape A = [n; d; c] -> wf_nd A ->
  shape Sj = [c] ->
  r < n -> is_zero (nth r (data Si) s_zero) = true ->
  exists G,
    gauge Si A Sj = Ok G /\
    shape G = [n; d; c] /\
    (forall p t, p < d -> t < c -> is_finite (item G [r; p; t]) = false) /\
    let j := ((i + 1) mod L psi)%Z in
    update_bond i U chi_max eps psi = (Ok tt, stored psi i j G Sj Bj) /\
    (i <> j -> Bs (stored psi i j G Sj Bj) !! Z.to_nat i = Some G).
Proof.
  intros Hwf Hi Hth Hsp HSi HshS HwS HshA HwA HshSj Hr Hzero.
  destruct (gauge_nonfinite Si A Sj n d c r) as (G & HG & HshG & Hnf); try done.
  exists G. repeat (split; [done|]). cbn zeta.
  pose proof (gated_theta_Ok_L _ _ _ _ Hth) as HL.
  assert (new_tensors psi i U chi_max eps
          = Ok (((i + 1) mod L psi)%Z, G, Sj, Bj)) as E.
  { unfold Stages.new_tensors, mod_.
    destruct (Z.eqb_spec (L psi) 0); [done|]. simpl.
    rewrite Hth. simpl. rewrite Hsp. simpl.
    rewrite (proj2 (getitem_Ok_lookup _ _ _ Hi) HSi). simpl. by rewrite HG. }
  split.
  - rewrite update_bond_cases by done. by rewrite E.
  - intros Hne.
    destruct (new_tensors_Ok _ _ _ _ _ _ _ _ _ _ Hwf Hi E) as (_ & HiL & HjL).
    destruct Hwf as [HB _]. unfold stored. simpl.
    rewrite list_lookup_insert_ne by lia.
    apply list_lookup_insert_eq. lia.
Qed.

(** C10.  [calc_U_bonds] raises on an empty list.  Otherwise [d] is the
    first dimension of [H_bonds[0]] and is used for every element: when the
    call returns, every Hamiltonian has exactly [d^4] entries and the
    [k]-th gate returned is the gate of the [k]-th Hamiltonian; when some
    element has another number of entries, the call raises. *)
Theorem calc_U_bonds_requirements (dt : scalar) :
  calc_U_bonds [] dt = Raise IndexError /\
  forall (H0 : ndarray) (Hs : list ndarray) (d : nat) (rest : list nat),
    shape H0 = d :: rest ->
    (forall U_bonds,
        calc_U_bonds (H0 :: Hs) dt = Ok U_bonds ->
        Forall2 (gate_of d dt) (H0 :: Hs) U_bonds /\
        Forall (fun H => size H = d ^ 4) (H0 :: Hs)) /\
    (Exists (fun H => size H <> d ^ 4) (H0 :: Hs) ->
     is_ok (calc_U_bonds (H0 :: Hs) dt) = false).
Proof.
  split; [done|]. intros H0 Hs d rest HH0.
  assert (forall U_bonds,
             calc_U_bonds (H0 :: Hs) dt = Ok U_bonds ->
             Forall2 (gate_of d dt) (H0 :: Hs) U_bonds /\
             Forall (fun H => size H = d ^ 4) (H0 :: Hs)) as Hok.
  { intros Us. unfold Tebd.calc_U_bonds. cbn [getitem length]. simpl.
    rewrite HH0. simpl. intros HUs.
    destruct (calc_U_bonds_loop_spec expm d dt (H0 :: Hs) [] Us HUs)
      as (Us' & -> & HF2).
    split; [done|]. clear HUs.
    induction HF2 as [|H U Hs' Us'' Hg _ IH]; constructor; [|done].
    by eapply gate_of_size. }
  split; [done|]. intros Hex.
  destruct (calc_U_bonds (H0 :: Hs) dt) as [Us|] eqn:E; [|done].
  destruct (Hok Us eq_refl) as [_ HF].
  apply Exists_exists in Hex as (H & Hin & Hsz).
  rewrite Forall_forall in HF. by destruct Hsz, (HF H Hin).
Qed.

End Claims.

(* ===================================================================== *)
(** ** The properties on concrete chains *)
(* ===================================================================== *)

Import Examples.

Lemma expm_shape_only_square (M : ndarray) (n : nat) :
  shape M = [n; n] -> exists E, expm_shape_only M = Ok E /\ shape E = [n; n].
Proof.
  intros H. exists M. unfold expm_shape_only. by rewrite H, Nat.eqb_refl.
Qed.

Lemma wf_product_state (sites : list ndarray) (bc : string) :
  wf (product_state sites bc).
Proof. unfold wf, product_state. simpl. by rewrite length_map. Qed.

(** C2 on the two-site chain: the spin flip on bond 0. *)
Lemma update_bond_installs_witness :
  Ss (product_state [B_down; B_down] "finite") !! 1 = Some S_one /\
  Bs (product_state [B_down; B_down] "finite") !! 1 = Some B_down.
Proof.
  destruct (update_bond_installs split_one_entry chain2
              (product_state [B_down; B_down] "finite") 0 U_flip 5 (Fin 0))
    as (Ut & A & Sj & Bj & Si & D & Gi & DS & G & H1 & H2 & _ & _ & _ & _ & _
        & _ & HS & HB & _).
  - apply wf_product_state.
  - lia.
  - vm_compute. reflexivity.
  - vm_compute in H1. injection H1 as <-.
    vm_compute in H2. injection H2 as <- <- <-.
    split; [exact HS|exact HB].
Defined.

(** C3 on the two-site chain: no gate where one is expected. *)
Lemma run_TEBD_length_check_witness :
  Nbonds_of chain2 = 1%Z /\
  run_TEBD split_one_entry [] 3 5 (Fin 0) chain2 = (Raise AssertionError, chain2).
Proof.
  destruct (run_TEBD_length_check split_one_entry [] 3 5 (Fin 0) chain2)
    as (Hfin & _ & Hlen).
  split.
  - apply Hfin. reflexivity.
  - apply Hlen. vm_compute. discriminate.
Defined.

(** C4 on a single bond Hamiltonian with [d = 2]. *)
Lemma calc_U_bonds_gates_witness :
  exists U_bonds,
    calc_U_bonds expm_shape_only [U_flip] (Fin 1) = Ok U_bonds /\
    length U_bonds = 1.
Proof.
  destruct (calc_U_bonds_gates expm_shape_only [U_flip] 2 (Fin 1))
    as (Us & H1 & H2 & _).
  - apply expm_shape_only_square.
  - discriminate.
  - repeat constructor.
  - exists Us. split; [exact H1|exact H2].
Defined.

(** The claim C5 fails on the infinite chain of one site: the chain has one
    bond, and a step with the spin flip turns the spin. *)
Lemma single_site_infinite_chain_is_updated :
  L (chain1 "infinite") = 1%Z /\
  wf (chain1 "infinite") /\
  run_TEBD split_one_entry [U_flip] 1 5 (Fin 0) (chain1 "infinite")
  = (Ok tt, product_state [B_down] "infinite") /\
  snd (run_TEBD split_one_entry [U_flip] 1 5 (Fin 0) (chain1 "infinite"))
  <> chain1 "infinite".
Proof.
  split; [reflexivity|]. split; [apply wf_product_state|].
  split; [vm_compute; reflexivity|].
  vm_compute. discriminate.
Qed.

(** C5 as amended, on the finite chain of one site. *)
Lemma run_TEBD_single_site_witness :
  snd (run_TEBD split_one_entry [] 7 5 (Fin 0) (chain1 "finite")) = chain1 "finite".
Proof.
  destruct (run_TEBD_single_site split_one_entry [] U_id 7 5 (Fin 0)
              (chain1 "finite")) as [Hfin _].
  - reflexivity.
  - destruct Hfin as (_ & H & _); [reflexivity|exact H].
Defined.

(** C6 on the two-site chain. *)
Lemma update_bond_frame_witness :
  match update_bond split_one_entry 0 U_flip 5 (Fin 0) chain2 with
  | (Raise _, psi') => psi' = chain2
  | (Ok _, psi') => L psi' = 2%Z /\ bc psi' = "finite"%string
  end.
Proof.
  pose proof (update_bond_frame split_one_entry chain2 0 U_flip 5 (Fin 0)
                (wf_product_state _ _) ltac:(lia)) as H.
  destruct (update_bond split_one_entry 0 U_flip 5 (Fin 0) chain2) as [[[]|e] psi'].
  - destruct H as (H1 & H2 & _). split; [exact H1|exact H2].
  - exact H.
Defined.

(** The claim C7 fails on the infinite chain of three sites: the even bonds
    0 and 2 share site 0, and the two orders of their updates end in
    different chains. *)
Lemma same_parity_bonds_share_a_site :
  wf chain3_infinite /\
  Nbonds_of chain3_infinite = 3%Z /\
  Z.even 0 = Z.even 2 /\
  In 0%Z (bond_sites chain3_infinite 0) /\
  In 0%Z (bond_sites chain3_infinite 2) /\
  (let upd i U psi := update_bond split_one_entry i U 5 (Fin 0) psi in
   fst (upd 0%Z U_flip chain3_infinite) = Ok tt /\
   fst (upd 2%Z U_cflip (snd (upd 0%Z U_flip chain3_infinite))) = Ok tt /\
   fst (upd 2%Z U_cflip chain3_infinite) = Ok tt /\
   fst (upd 0%Z U_flip (snd (upd 2%Z U_cflip chain3_infinite))) = Ok tt /\
   snd (upd 2%Z U_cflip (snd (upd 0%Z U_flip chain3_infinite)))
   <> snd (upd 0%Z U_flip (snd (upd 2%Z U_cflip chain3_infinite)))).
Proof.
  split; [apply wf_product_state|].
  repeat (split; [vm_compute; tauto|]).
  vm_compute. discriminate.
Qed.

(** C7 as amended, on the finite chain of four sites: bonds 0 and 2. *)
Lemma same_parity_updates_commute_witness :
  exists psi2,
    update_bond split_one_entry 2 U_cflip 5 (Fin 0) chain4 = (Ok tt, psi2) /\
    update_bond split_one_entry 0 U_flip 5 (Fin 0) psi2
    = (Ok tt, product_state [B_down; B_down; B_up; B_up] "finite").
Proof.
  destruct (same_parity_updates_commute split_one_entry chain4
              (product_state [B_down; B_down; B_up; B_up] "finite")
              (product_state [B_down; B_down; B_up; B_up] "finite")
              0 2 U_flip U_cflip 5 (Fin 0)) as [_ H].
  - apply wf_product_state.
  - vm_compute. split; [discriminate|reflexivity].
  - vm_compute. split; [discriminate|reflexivity].
  - discriminate.
  - reflexivity.
  - left. reflexivity.
  - apply H; vm_compute; reflexivity.
Defined.

(** C8 on the two-site chain. *)
Lemma run_TEBD_no_steps_witness :
  run_TEBD split_one_entry [U_flip] 0 5 (Fin 0) chain2 = (Ok tt, chain2).
Proof.
  apply (run_TEBD_no_steps split_one_entry [U_flip] 5 (Fin 0) chain2).
  reflexivity.
Defined.

(** C9 on bond 1 of a chain whose [S[1]] is [[1, 0]]: the update goes
    through and leaves nan in [B[1]]. *)
Lemma update_bond_zero_singular_value_witness :
  exists psi' G,
    update_bond split_one_entry 1 U_id 5 (Fin 0) chain_zero_sv = (Ok tt, psi') /\
    Bs psi' !! 1 = Some G /\
    is_finite (item G [1; 0; 0]) = false.
Proof.
  destruct (update_bond_zero_singular_value split_one_entry chain_zero_sv 1 U_id
              5 (Fin 0)
              (arr [2; 2; 2; 1] [1; 0; 0; 0; 0; 0; 0; 0]%Z)
              (arr [2; 2; 1] [1; 0; 0; 0]%Z) S_one B_up
              (arr [2] [1; 0]%Z) 2 2 1 1)
    as (G & _ & _ & Hnf & Hup & HB).
  - vm_compute. split; reflexivity.
  - lia.
  - vm_compute. reflexivity.
  - vm_compute. reflexivity.
  - reflexivity.
  - reflexivity.
  - reflexivity.
  - reflexivity.
  - reflexivity.
  - reflexivity.
  - lia.
  - reflexivity.
  - exists (stored chain_zero_sv 1 ((1 + 1) mod L chain_zero_sv) G S_one B_up), G.
    split; [exact Hup|]. split.
    + apply HB. vm_compute. discriminate.
    + apply Hnf; lia.
Defined.

(** C10 on a list whose second element has 3 entries instead of 16. *)
Lemma calc_U_bonds_requirements_witness :
  calc_U_bonds expm_shape_only [] (Fin 1) = Raise IndexError /\
  is_ok (calc_U_bonds expm_shape_only [U_id; arr [3] [1; 2; 3]%Z] (Fin 1)) = false.
Proof.
  destruct (calc_U_bonds_requirements expm_shape_only (Fin 1)) as [Hnil Hcons].
  split; [exact Hnil|].
  destruct (Hcons U_id [arr [3] [1; 2; 3]%Z] 2 [2; 2; 2] eq_refl) as [_ Hbad].
  apply Hbad. apply Exists_cons_tl, Exists_cons_hd. vm_compute. discriminate.
Defined.

(* ===================================================================== *)
(** ** Further properties of the sweep *)
(* ===================================================================== *)

Section LoopLemmas.
Context {SC : Scalar}.

(** A property kept by every iteration is kept by the loop, whether it
    completes or raises. *)
Lemma for_invariant {A : Type} (P : MPS -> Prop) (Q : A -> Prop)
    (f : A -> M unit) (xs : list A) psi :
  (forall x psi0, Q x -> P psi0 -> P (snd (f x psi0))) ->
  Forall Q xs -> P psi -> P (snd (for_ xs f psi)).
Proof.
  intros Hstep HQ. revert psi.
  induction HQ as [|x xs Hx _ IH]; intros psi HP; [done|].
  simpl. unfold bind. specialize (Hstep x psi Hx HP).
  destruct (f x psi) as [[[]|e] psi1]; simpl in *; [by apply IH|done].
Qed.

(** A loop that raises stops after a completed prefix, in the iteration
    that raised. *)
Lemma for_raise_prefix {A : Type} (f : A -> M unit) (xs : list A) psi e psi' :
  for_ xs f psi = (Raise e, psi') ->
  exists (k : nat) (x : A) (psi1 : MPS),
    xs !! k = Some x /\
    for_ (take k xs) f psi = (Ok tt, psi1) /\
    f x psi1 = (Raise e, psi').
Proof.
  revert psi. induction xs as [|x xs IH]; intros psi; [done|].
  simpl. unfold bind at 1.
  destruct (f x psi) as [[[]|e1] psi1] eqn:E.
  - intros H. destruct (IH _ H) as (k & y & psi2 & Hk & Hpre & Hy).
    exists (S k), y, psi2. split; [done|]. split; [|done].
    simpl. unfold bind. by rewrite E.
  - intros [= <- <-]. by exists 0, x, psi.
Qed.

(** A loop whose body ignores the loop variable only counts. *)
Lemma for_ignore {A : Type} (xs : list A) (m : M unit) psi :
  for_ xs (fun _ => m) psi = for_ (repeat tt (length xs)) (fun _ => m) psi.
Proof.
  revert psi. induction xs as [|x xs IH]; intros psi; [done|].
  simpl. apply bind_ext; [done|]. intros _ psi'. apply IH.
Qed.

(** The loop rule with an exceptional postcondition. *)
Lemma for_hoare {A : Type} (I : MPS -> Prop) (E : exn -> Prop) (Q : A -> Prop)
    (f : A -> M unit) (xs : list A) psi :
  (forall x psi0, Q x -> I psi0 ->
     match f x psi0 with
     | (Ok _, psi') => I psi'
     | (Raise e, psi') => I psi' /\ E e
     end) ->
  Forall Q xs -> I psi ->
  match for_ xs f psi with
  | (Ok _, psi') => I psi'
  | (Raise e, psi') => I psi' /\ E e
  end.
Proof.
  intros Hstep HQ. revert psi.
  induction HQ as [|x xs Hx _ IH]; intros psi HI; [done|].
  simpl. unfold bind. specialize (Hstep x psi Hx HI).
  destruct (f x psi) as [[[]|e] psi1]; [by apply IH|done].
Qed.

Lemma Forall_bonds_upto (n : Z) :
  Forall (fun i => (0 <= i < n)%Z) (bonds_upto n).
Proof.
  unfold bonds_upto. apply Forall_forall. intros i Hi.
  apply list_elem_of_In, in_map_iff in Hi as (k & <- & Hk).
  apply in_seq in Hk. lia.
Qed.

Lemma Forall_filter_keep {A : Type} (P Q : A -> Prop)
    `{forall x, Decision (P x)} (l : list A) :
  Forall Q l -> Forall Q (filter P l).
Proof.
  rewrite !Forall_forall. intros HQ x Hx.
  apply list_elem_of_filter in Hx as [_ Hx]. by apply HQ.
Qed.

(** Every scheduled bond is a bond of the chain. *)
Lemma Forall_schedule (steps : nat) (n : Z) :
  Forall (fun i => (0 <= i < n)%Z) (schedule steps n).
Proof.
  unfold schedule. induction steps as [|k IH]; simpl; [done|].
  apply Forall_app. split; [|done].
  apply Forall_app. split; apply Forall_filter_keep, Forall_bonds_upto.
Qed.

Lemma schedule_add (n1 n2 : nat) (n : Z) :
  schedule (n1 + n2) n = schedule n1 n ++ schedule n2 n.
Proof.
  unfold schedule. induction n1 as [|k IH]; simpl; [done|].
  by rewrite IH, app_assoc.
Qed.

End LoopLemmas.

Section SweepLemmas.
Context {SC : Scalar}.
Variable split_truncate_theta :
  ndarray -> Z -> scalar -> result (ndarray * ndarray * ndarray).

Local Abbreviation update_bond := (update_bond split_truncate_theta).
Local Abbreviation run_TEBD := (run_TEBD split_truncate_theta).
Local Abbreviation new_tensors := (new_tensors split_truncate_theta).
Local Abbreviation sweep_body := (sweep_body split_truncate_theta).

Lemma same_layout_refl psi : same_layout psi psi.
Proof. by unfold same_layout. Qed.

Lemma same_layout_trans psi1 psi2 psi3 :
  same_layout psi1 psi2 -> same_layout psi2 psi3 -> same_layout psi1 psi3.
Proof.
  unfold same_layout. intros (?&?&?&?) (?&?&?&?). repeat split; congruence.
Qed.

Lemma same_layout_wf psi psi' : same_layout psi psi' -> wf psi -> wf psi'.
Proof. unfold same_layout, wf. intros (?&?&?&?) [? ?]. split; congruence. Qed.

Lemma same_layout_Nbonds psi psi' :
  same_layout psi psi' -> Nbonds_of psi' = Nbonds_of psi.
Proof. unfold same_layout, Nbonds_of. by intros (-> & -> & _). Qed.

Lemma setitem_Ok_length {A : Type} (l l' : list A) (i : Z) (x : A) :
  setitem l i x = Ok l' -> length l' = length l.
Proof.
  unfold setitem. case_match; [|done]. intros [= <-]. apply length_insert.
Qed.

Lemma set_Bs_layout i x psi : same_layout psi (snd (set_Bs i x psi)).
Proof.
  unfold set_Bs. destruct (setitem (Bs psi) i x) as [l|] eqn:E; simpl;
    [|apply same_layout_refl].
  unfold same_layout. simpl. by rewrite (setitem_Ok_length _ _ _ _ E).
Qed.

Lemma set_Ss_layout i x psi : same_layout psi (snd (set_Ss i x psi)).
Proof.
  unfold set_Ss. destruct (setitem (Ss psi) i x) as [l|] eqn:E; simpl;
    [|apply same_layout_refl].
  unfold same_layout. simpl. by rewrite (setitem_Ok_length _ _ _ _ E).
Qed.

(** Whatever happens in a bond update, the chain keeps its layout. *)
Lemma update_bond_layout i U chi eps psi :
  same_layout psi (snd (update_bond i U chi eps psi)).
Proof.
  rewrite update_bond_new_tensors.
  destruct (new_tensors psi i U chi eps) as [[[[j Bi] Sj] Bj]|e];
    [|apply same_layout_refl].
  unfold bind.
  pose proof (set_Bs_layout i Bi psi) as H1.
  destruct (set_Bs i Bi psi) as [[[]|e1] psi1]; simpl in H1; [|done].
  pose proof (set_Ss_layout j Sj psi1) as H2.
  destruct (set_Ss j Sj psi1) as [[[]|e2] psi2]; simpl in H2;
    [|by eapply same_layout_trans].
  pose proof (set_Bs_layout j Bj psi2) as H3.
  eapply same_layout_trans; [done|]. by eapply same_layout_trans.
Qed.

Lemma sweep_body_layout U chi eps i psi :
  same_layout psi (snd (sweep_body U chi eps i psi)).
Proof.
  unfold sweep_body, bind, lift.
  destruct (getitem U i); simpl; [apply update_bond_layout|apply same_layout_refl].
Qed.

Lemma sweep_layout U chi eps (xs : list Z) psi :
  same_layout psi (snd (for_ xs (sweep_body U chi eps) psi)).
Proof.
  apply (for_invariant (same_layout psi) (fun _ => True)).
  - intros x psi0 _ H. eapply same_layout_trans; [done|apply sweep_body_layout].
  - by apply Forall_forall.
  - apply same_layout_refl.
Qed.

(** [run_TEBD] as one loop over the schedule with the source's loop body. *)
Lemma run_TEBD_updates U N chi eps psi :
  run_TEBD U N chi eps psi
  = bind (assert (Z.of_nat (length U) =? Nbonds_of psi)%Z)
         (fun _ => for_ (schedule (Z.to_nat N) (Nbonds_of psi))
                     (sweep_body U chi eps)) psi.
Proof.
  rewrite run_TEBD_unfold. apply bind_ext; [done|]. intros _ psi1.
  apply for_ext. intros i psi2. unfold sweep_body.
  apply bind_ext; [done|]. intros Ui psi3. symmetry. apply update_bond_stages.
Qed.

(** On a well-formed chain an iteration that raises leaves the chain as it
    found it. *)
Lemma sweep_body_raise U chi eps i psi e psi' :
  wf psi -> (0 <= i)%Z ->
  sweep_body U chi eps i psi = (Raise e, psi') -> psi' = psi.
Proof.
  intros Hwf Hi. unfold sweep_body, bind, lift.
  destruct (getitem U i) as [Ui|]; [|by intros [= _ <-]].
  rewrite update_bond_cases by done.
  destruct (new_tensors psi i Ui chi eps) as [[[[j Bi] Sj] Bj]|]; [done|].
  by intros [= _ <-].
Qed.

(** Splitting a run after its first [n1] time steps. *)
Lemma run_TEBD_split_steps U (n1 n2 : nat) chi eps psi :
  run_TEBD U (Z.of_nat (n1 + n2)) chi eps psi
  = bind (run_TEBD U (Z.of_nat n1) chi eps)
         (fun _ => run_TEBD U (Z.of_nat n2) chi eps) psi.
Proof.
  change (bind (run_TEBD U (Z.of_nat n1) chi eps)
            (fun _ => run_TEBD U (Z.of_nat n2) chi eps) psi)
    with (match run_TEBD U (Z.of_nat n1) chi eps psi with
          | (Ok _, psi1) => run_TEBD U (Z.of_nat n2) chi eps psi1
          | (Raise e, psi1) => (Raise e, psi1)
          end).
  rewrite (run_TEBD_updates _ (Z.of_nat (n1 + n2))), (run_TEBD_updates _ (Z.of_nat n1)).
  unfold bind, assert, ret, lift.
  destruct (Z.of_nat (length U) =? Nbonds_of psi)%Z eqn:Hlen; [|done].
  rewrite !Nat2Z.id, schedule_add, for_app. unfold bind.
  pose proof (sweep_layout U chi eps (schedule n1 (Nbonds_of psi)) psi) as Hlay.
  destruct (for_ (schedule n1 (Nbonds_of psi)) (sweep_body U chi eps) psi)
    as [[[]|e] psi1]; [|done].
  simpl in Hlay. rewrite run_TEBD_updates. unfold bind, assert, ret, lift.
  by rewrite (same_layout_Nbonds _ _ Hlay), Hlen, Nat2Z.id.
Qed.

End SweepLemmas.

Section SweepProperties.
Context {SC : Scalar}.
Variable split_truncate_theta :
  ndarray -> Z -> scalar -> result (ndarray * ndarray * ndarray).

Local Abbreviation update_bond := (update_bond split_truncate_theta).
Local Abbreviation run_TEBD := (run_TEBD split_truncate_theta).
Local Abbreviation new_tensors := (new_tensors split_truncate_theta).
Local Abbreviation sweep_body := (sweep_body split_truncate_theta).

(** X1.  Whatever the gates and however the call ends, [run_TEBD] leaves
    [psi.L], [psi.bc] and the lengths of [psi.Bs] and [psi.Ss] as they
    were. *)
Theorem run_TEBD_keeps_layout (U_bonds : list ndarray) (N_steps chi_max : Z)
    (eps : scalar) (psi : MPS) :
  same_layout psi (snd (run_TEBD U_bonds N_steps chi_max eps psi)).
Proof.
  rewrite run_TEBD_updates. unfold bind at 1, assert, ret, lift.
  destruct (Z.of_nat (length U_bonds) =? Nbonds_of psi)%Z; simpl;
    [apply sweep_layout|apply same_layout_refl].
Qed.

(** X2.  On a finite chain no bond update ever writes the vector [S[0]]
    at the left end: it is the same before and after [run_TEBD], however
    the call ends. *)
Theorem run_TEBD_finite_keeps_S0 (U_bonds : list ndarray) (N_steps chi_max : Z)
    (eps : scalar) (psi : MPS) :
  wf psi -> bc psi = "finite"%string ->
  Ss (snd (run_TEBD U_bonds N_steps chi_max eps psi)) !! 0 = Ss psi !! 0.
Proof.
  intros Hwf Hbc. rewrite run_TEBD_updates. unfold bind at 1, assert, ret, lift.
  destruct (Z.of_nat (length U_bonds) =? Nbonds_of psi)%Z; simpl; [|done].
  assert (Nbonds_of psi = (L psi - 1)%Z) as -> by (unfold Nbonds_of; by rewrite Hbc).
  apply (for_invariant
           (fun psi0 => (wf psi0 /\ L psi0 = L psi) /\ Ss psi0 !! 0 = Ss psi !! 0)
           (fun i => (0 <= i < L psi - 1)%Z));
    [|apply Forall_schedule|done].
  intros i psi0 Hi [[Hwf0 HL0] HS0].
  unfold sweep_body, bind, lift.
  destruct (getitem U_bonds i) as [Ui|]; simpl; [|done].
  rewrite update_bond_cases by (done || lia).
  destruct (new_tensors psi0 i Ui chi_max eps) as [[[[j Bi] Sj] Bj]|] eqn:E;
    simpl; [|done].
  destruct (new_tensors_Ok _ _ _ _ _ _ _ _ _ _ Hwf0 (proj1 Hi) E) as (-> & _ & _).
  split; [split; [by apply wf_stored|done]|].
  rewrite HL0, Z.mod_small by lia.
  rewrite list_lookup_insert_ne by lia. done.
Qed.

(** X3.  Time steps compose: running [N1 + N2] steps is running [N1] steps
    and then, if that completed, [N2] more. *)
Theorem run_TEBD_steps_add (U_bonds : list ndarray) (N1 N2 chi_max : Z)
    (eps : scalar) (psi : MPS) :
  (0 <= N1)%Z -> (0 <= N2)%Z ->
  run_TEBD U_bonds (N1 + N2) chi_max eps psi
  = bind (run_TEBD U_bonds N1 chi_max eps)
         (fun _ => run_TEBD U_bonds N2 chi_max eps) psi.
Proof.
  intros H1 H2.
  rewrite <- (Z2Nat.id N1), <- (Z2Nat.id N2) by done.
  rewrite <- Nat2Z.inj_add.
  apply run_TEBD_split_steps.
Qed.

(** X4.  A call of [run_TEBD] that raises leaves the chain as it was after
    the bond updates completed so far: no bond is left half updated. *)
Theorem run_TEBD_raise_between_bonds (U_bonds : list ndarray)
    (N_steps chi_max : Z) (eps : scalar) (psi psi' : MPS) (e : exn) :
  wf psi ->
  run_TEBD U_bonds N_steps chi_max eps psi = (Raise e, psi') ->
  exists k : nat,
    for_ (take k (schedule (Z.to_nat N_steps) (Nbonds_of psi)))
      (sweep_body U_bonds chi_max eps) psi = (Ok tt, psi').
Proof.
  intros Hwf. rewrite run_TEBD_updates. unfold bind at 1, assert, ret, lift.
  destruct (Z.of_nat (length U_bonds) =? Nbonds_of psi)%Z.
  - intros Hr. destruct (for_raise_prefix _ _ _ _ _ Hr) as (k & i & psi1 & Hk & Hpre & Hi).
    exists k. rewrite Hpre. f_equal. symmetry.
    eapply sweep_body_raise; [| |exact Hi].
    + pose proof (sweep_layout split_truncate_theta U_bonds chi_max eps
                    (take k (schedule (Z.to_nat N_steps) (Nbonds_of psi))) psi) as Hlay.
      rewrite Hpre in Hlay. by eapply same_layout_wf.
    + pose proof (Forall_schedule (Z.to_nat N_steps) (Nbonds_of psi)) as HF.
      rewrite Forall_forall in HF.
      apply list_elem_of_lookup_2 in Hk. apply HF in Hk. lia.
  - intros [= _ <-]. by exists 0.
Qed.

(** X5.  A step count that is zero or negative is accepted: only the number
    of gates is checked, and the chain is returned as it was. *)
Theorem run_TEBD_nonpositive_steps (U_bonds : list ndarray) (N_steps chi_max : Z)
    (eps : scalar) (psi : MPS) :
  (N_steps <= 0)%Z ->
  run_TEBD U_bonds N_steps chi_max eps psi
  = (if (Z.of_nat (length U_bonds) =? Nbonds_of psi)%Z then Ok tt
     else Raise AssertionError, psi).
Proof.
  intros HN. rewrite run_TEBD_updates. unfold bind, assert, ret, lift.
  replace (Z.to_nat N_steps) with 0 by lia.
  by destruct (Z.of_nat (length U_bonds) =? Nbonds_of psi)%Z.
Qed.

(** X6.  A finite chain without sites has [-1] bonds, a number no gate list
    can match: [run_TEBD] raises the assertion for every gate list. *)
Theorem run_TEBD_empty_finite_chain (U_bonds : list ndarray)
    (N_steps chi_max : Z) (eps : scalar) (psi : MPS) :
  L psi = 0%Z -> bc psi = "finite"%string ->
  run_TEBD U_bonds N_steps chi_max eps psi = (Raise AssertionError, psi).
Proof.
  intros HL Hbc. apply run_TEBD_bad_length.
  unfold Nbonds_of. rewrite Hbc, HL. simpl. lia.
Qed.

(** X7.  A bond index at or beyond the end of a well-formed chain makes
    [update_bond] raise before it stores anything: [ZeroDivisionError]
    when the chain is empty, [IndexError] otherwise. *)
Theorem update_bond_index_out_of_range (psi : MPS) (i : Z) (U : ndarray)
    (chi_max : Z) (eps : scalar) :
  wf psi -> (L psi <= i)%Z ->
  update_bond i U chi_max eps psi
  = (Raise (if (L psi =? 0)%Z then ZeroDivisionError else IndexError), psi).
Proof.
  intros [HB HS] Hi.
  unfold Tebd.update_bond, get_theta2, bind, read, lift, mod_. simpl.
  destruct (Z.eqb_spec (L psi) 0); [done|]. simpl.
  rewrite (getitem_nonneg (Ss psi)) by lia.
  rewrite (proj2 (lookup_ge_None (Ss psi) (Z.to_nat i))) by lia. done.
Qed.

End SweepProperties.

Section IndexWrap.
Context {SC : Scalar}.
Variable split_truncate_theta :
  ndarray -> Z -> scalar -> result (ndarray * ndarray * ndarray).

Local Abbreviation update_bond := (update_bond split_truncate_theta).




End IndexWrap.

Section CalcProperties.
Context {SC : Scalar}.
Variable expm : ndarray -> result ndarray.

Local Abbreviation calc_U_bonds := (calc_U_bonds expm).
Local Abbreviation calc_U_bonds_loop := (calc_U_bonds_loop expm).
Local Abbreviation gate_of := (Stages.gate_of expm).

Hypothesis expm_square :
  forall (M : ndarray) (n : nat),
    shape M = [n; n] -> exists E, expm M = Ok E /\ shape E = [n; n].

Lemma gate_of_total_size d dt H :
  size H = d ^ 4 -> exists U, gate_of d dt H U.
Proof.
  intros HH. unfold Stages.gate_of.
  assert (reshape H [d * d; d * d] = Ok (mk_nd [d * d; d * d] (data H))) as E1.
  { apply reshape_Ok. rewrite HH. simpl. lia. }
  destruct (expm_square (scale (s_neg dt) (mk_nd [d * d; d * d] (data H))) (d * d))
    as (E & E2 & HE); [done|].
  assert (reshape E [d; d; d; d] = Ok (mk_nd [d; d; d; d] (data E))) as E3.
  { apply reshape_Ok. unfold size. rewrite HE. simpl. lia. }
  eauto 10.
Qed.

Lemma calc_U_bonds_loop_total_size d dt Hs acc :
  Forall (fun H => size H = d ^ 4) Hs ->
  exists Us, calc_U_bonds_loop d dt Hs acc = Ok Us.
Proof.
  intros HF. revert acc. induction HF as [|H Hs HH _ IH]; intros acc; simpl.
  - eauto.
  - destruct (gate_of_total_size d dt H HH) as (U & Hm & E & -> & E2 & E3). simpl.
    rewrite E2. simpl. rewrite E3. simpl. apply IH.
Qed.

(** X9.  [calc_U_bonds] looks at the first dimension of the first element
    and, for the rest, only at the number of entries: any list whose
    elements have [d^4] entries each is accepted, whatever their shapes
    (four legs, a [(d*d, d*d)] matrix, ...), and every gate comes back with
    shape [(d, d, d, d)].  The library routine [expm] is assumed to return
    a matrix of the shape of its square argument. *)
Theorem calc_U_bonds_any_shape (H0 : ndarray) (Hs : list ndarray) (d : nat)
    (rest : list nat) (dt : scalar) :
  shape H0 = d :: rest ->
  Forall (fun H => size H = d ^ 4) (H0 :: Hs) ->
  exists U_bonds,
    calc_U_bonds (H0 :: Hs) dt = Ok U_bonds /\
    length U_bonds = S (length Hs) /\
    Forall (fun U => shape U = [d; d; d; d]) U_bonds.
Proof.
  intros HH0 HF.
  unfold Tebd.calc_U_bonds. cbn [getitem length]. simpl. rewrite HH0. simpl.
  destruct (calc_U_bonds_loop_total_size d dt (H0 :: Hs) [] HF) as [Us HUs].
  simpl in HUs. rewrite HUs.
  destruct (calc_U_bonds_loop_spec expm d dt (H0 :: Hs) [] Us HUs)
    as (Us' & -> & HF2).
  simpl. exists Us'. split; [done|]. split.
  - exact (eq_sym (Forall2_length _ _ _ HF2)).
  - clear HUs HF. induction HF2 as [|H U Hs' Us'' Hg _ IH]; constructor; [|done].
    by eapply gate_of_shape.
Qed.

End CalcProperties.

Section TensordotLemmas.
Context {SC : Scalar}.
Implicit Types (a b : ndarray) (shp : list nat).

Lemma prod_app (l1 l2 : list nat) : prod (l1 ++ l2) = prod l1 * prod l2.
Proof.
  induction l1 as [|n l1 IH]; simpl; [lia|].
  change (fold_right Nat.mul 1 (l1 ++ l2)) with (prod (l1 ++ l2)).
  change (fold_right Nat.mul 1 l1) with (prod l1). rewrite IH. lia.
Qed.

Lemma pick_app (l ax1 ax2 : list nat) : pick l (ax1 ++ ax2) = pick l ax1 ++ pick l ax2.
Proof. apply map_app. Qed.

Lemma transpose_Ok a axes :
  is_perm (ndim a) axes = true ->
  transpose a axes = Ok (mk_nd (pick (shape a) axes) (transpose_data a axes)).
Proof. intros H. unfold transpose. by rewrite H. Qed.

Lemma length_transpose_data a axes :
  length (transpose_data a axes) = prod (pick (shape a) axes).
Proof. unfold transpose_data. by rewrite length_map, length_seq. Qed.

Lemma getitem_of_nat {A : Type} (l : list A) (k : nat) :
  getitem l (Z.of_nat k)
  = match l !! k with Some x => Ok x | None => Raise IndexError end.
Proof. rewrite getitem_nonneg by lia. by rewrite Nat2Z.id. Qed.

(** The dimensions compared by [tensordot] agree pair by pair. *)
Lemma axes_equal_pick (sa sb axa axb : list nat) :
  length axa = length axb ->
  axes_equal sa sb axa axb = Ok true -> pick sa axa = pick sb axb.
Proof.
  revert axb. induction axa as [|x xs IH]; intros [|y ys] Hlen; try done.
  simpl in Hlen. cbn [axes_equal].
  rewrite !getitem_nonneg by lia. rewrite !Nat2Z.id.
  destruct (sa !! x) as [da|] eqn:Ea; [|done].
  destruct (sb !! y) as [db|] eqn:Eb; [|done]. cbn [rbind].
  destruct (Nat.eqb_spec da db) as [->|]; [|done].
  intros H. cbn [pick map]. f_equal; [|apply IH; [lia|done]].
  by rewrite (nth_lookup_Some _ _ _ _ Ea), (nth_lookup_Some _ _ _ _ Eb).
Qed.

(** [tensordot] goes through whenever the contracted dimensions agree and
    the axes are distinct axes of the arrays; its result is the matrix
    product of the two transposed buffers. *)
Lemma tensordot_Ok a b (axa axb : list nat) :
  length axa = length axb ->
  axes_equal (shape a) (shape b) axa axb = Ok true ->
  is_perm (ndim a) (notin (ndim a) axa ++ axa) = true ->
  is_perm (ndim b) (axb ++ notin (ndim b) axb) = true ->
  tensordot a b axa axb
  = Ok (mk_nd (pick (shape a) (notin (ndim a) axa) ++ pick (shape b) (notin (ndim b) axb))
          (dot_data (prod (pick (shape a) (notin (ndim a) axa)))
                    (prod (pick (shape a) axa))
                    (prod (pick (shape b) (notin (ndim b) axb)))
                    (transpose_data a (notin (ndim a) axa ++ axa))
                    (transpose_data b (axb ++ notin (ndim b) axb)))).
Proof.
  intros Hlen Heq Hpa Hpb.
  pose proof (axes_equal_pick _ _ _ _ Hlen Heq) as Hpick.
  unfold tensordot. rewrite Hlen, Nat.eqb_refl, Heq. cbn [negb rbind].
  rewrite (transpose_Ok a _ Hpa), (transpose_Ok b _ Hpb). cbn [rbind].
  rewrite reshape_Ok
    by (unfold size; cbn [shape prod fold_right];
        rewrite pick_app, prod_app; fold (prod (pick (shape a) axa)); lia).
  cbn [rbind].
  rewrite reshape_Ok
    by (unfold size; cbn [shape prod fold_right];
        rewrite pick_app, prod_app, Hpick; fold (prod (pick (shape b) axb)); lia).
  cbn [rbind]. unfold dot. cbn [shape data]. rewrite Nat.eqb_refl. cbn [rbind].
  rewrite reshape_Ok; [done|].
  unfold size. cbn [shape prod fold_right]. rewrite prod_app. lia.
Qed.

Lemma unravel_add_mul shp k m : unravel shp (k + m * prod shp) = unravel shp k.
Proof.
  revert k m. induction shp as [|n rest IH]; intros k m; [done|].
  change (prod (n :: rest)) with (n * prod rest). cbn [unravel].
  replace (k + m * (n * prod rest)) with (k + (m * n) * prod rest) by lia.
  rewrite IH. f_equal.
  destruct (Nat.eq_dec (prod rest) 0) as [E|E].
  - by rewrite E, !Nat.mul_0_r, Nat.add_0_r.
  - rewrite Nat.div_add by done. by rewrite Nat.Div0.mod_add.
Qed.

(** A multi-index within the shape is recovered from its row-major
    offset, and the offset is within the buffer. *)
Lemma unravel_offset shp idx :
  Forall2 lt idx shp ->
  unravel shp (offset (strides shp) idx) = idx /\
  offset (strides shp) idx < prod shp.
Proof.
  induction 1 as [|i n idx rest Hi _ [IH1 IH2]]; [split; [done|simpl; lia]|].
  change (prod (n :: rest)) with (n * prod rest).
  cbn [strides offset unravel]. split.
  - f_equal.
    + rewrite Nat.div_add_l by lia. rewrite (Nat.div_small _ _ IH2).
      rewrite Nat.add_0_r. by apply Nat.mod_small.
    + rewrite Nat.add_comm, unravel_add_mul. done.
  - apply Nat.lt_le_trans with (S i * prod rest); [simpl; lia|].
    apply Nat.mul_le_mono_r. lia.
Qed.

(** The entry of a transposed array at a multi-index is the entry of the
    original at the permuted position. *)
Lemma nth_transpose_data a axes (idx : list nat) :
  Forall2 lt idx (pick (shape a) axes) ->
  nth (offset (strides (pick (shape a) axes)) idx) (transpose_data a axes) s_zero
  = nth (offset (pick (strides (shape a)) axes) idx) (data a) s_zero.
Proof.
  intros Hidx. destruct (unravel_offset _ _ Hidx) as [Hun Hlt].
  unfold transpose_data. rewrite nth_map_seq by done. by rewrite Hun.
Qed.

End TensordotLemmas.

(** Discharges the comparison of the contracted dimensions when they are
    syntactically equal. *)
Ltac solve_axes_equal :=
  cbn [axes_equal]; rewrite !getitem_of_nat; cbn [lookup list_lookup rbind];
  rewrite ?Nat.eqb_refl; reflexivity.

Section GateContraction.
Context {SC : Scalar}.

Lemma strides_app (s1 s2 : list nat) :
  strides (s1 ++ s2) = map (fun s => s * prod s2) (strides s1) ++ strides s2.
Proof.
  induction s1 as [|n s1 IH]; [done|].
  cbn [app strides map]. rewrite IH, prod_app. done.
Qed.

(** The offset of a multi-index splits along a split of the shape. *)
Lemma offset_app (s1 s2 idx1 idx2 : list nat) :
  length idx1 = length s1 ->
  offset (strides (s1 ++ s2)) (idx1 ++ idx2)
  = offset (strides s1) idx1 * prod s2 + offset (strides s2) idx2.
Proof.
  rewrite strides_app. revert idx1.
  induction s1 as [|n s1 IH]; intros [|i idx1] Hlen; try done.
  cbn [strides map app offset]. rewrite IH by (simpl in Hlen; lia). lia.
Qed.

Lemma legs2 (d t : nat) : t < d * d -> unravel [d; d] t = [t / d; t mod d].
Proof.
  intros Ht. cbn [unravel prod fold_right].
  rewrite !Nat.mul_1_r, Nat.div_1_r. f_equal.
  apply Nat.mod_small. apply Nat.Div0.div_lt_upper_bound. lia.
Qed.

Lemma legs2_offset (d t : nat) :
  t < d * d -> offset (strides [d; d]) [t / d; t mod d] = t.
Proof.
  intros Ht. rewrite <- legs2 by done. rewrite offset_unravel.
  apply Nat.mod_small. simpl. lia.
Qed.

Lemma legs2_bound (d t : nat) : t < d * d -> t / d < d /\ t mod d < d.
Proof.
  intros Ht. assert (d <> 0) by lia. split.
  - apply Nat.Div0.div_lt_upper_bound. lia.
  - by apply Nat.mod_upper_bound.
Qed.

(** Lines 42-43 of [update_bond]: the gate is applied to the two physical
    legs and the legs come back in the order [vL i j vR]. *)
Lemma apply_gate_entries (U theta : ndarray) (d a c : nat) :
  shape U = [d; d; d; d] -> shape theta = [a; d; d; c] ->
  exists R,
    apply_gate U theta = Ok R /\
    shape R = [a; d; d; c] /\
    wf_nd R /\
    forall x i j y, x < a -> i < d -> j < d -> y < c ->
      item R [x; i; j; y]
      = ssum (map (fun t => s_mul (item U [i; j; t / d; t mod d])
                                  (item theta [x; t / d; t mod d; y]))
                  (seq 0 (d * d))).
Proof.
  intros HU Hth. unfold apply_gate.
  rewrite tensordot_Ok; unfold ndim; rewrite ?HU, ?Hth;
    [|done|solve_axes_equal|done|done].
  cbn [rbind]. rewrite transpose_Ok by done.
  eexists. split; [done|]. split; [done|]. split.
  { unfold wf_nd, size. cbn [shape data]. apply length_transpose_data. }
  intros x i j y Hx Hi Hj Hy.
  unfold item at 1. cbn [shape data].
  change (notin (length [d; d; d; d]) [2; 3]) with [0; 1].
  change (notin (length [a; d; d; c]) [1; 2]) with [0; 3].
  change (pick [d; d; d; d] [0; 1]) with [d; d].
  change (pick [a; d; d; c] [0; 3]) with [a; c].
  change ([0; 1] ++ [2; 3]) with [0; 1; 2; 3].
  change ([1; 2] ++ [0; 3]) with [1; 2; 0; 3].
  match goal with
  | |- context [transpose_data ?T [2; 0; 1; 3]] => set (T1 := T)
  end.
  change (pick ([d; d] ++ [a; c]) [2; 0; 1; 3]) with (pick (shape T1) [2; 0; 1; 3]).
  rewrite nth_transpose_data
    by (cbn; repeat constructor; done).
  subst T1. cbn [shape data].
  change (offset (pick (strides ([d; d] ++ [a; c])) [2; 0; 1; 3]) [x; i; j; y])
    with (x * (c * 1) + (i * (d * (a * (c * 1))) + (j * (a * (c * 1)) + (y * 1 + 0)))).
  assert (Hrow : offset (strides [d; d]) [i; j] < prod [d; d])
    by (apply unravel_offset; repeat constructor; done).
  assert (Hcol : offset (strides [a; c]) [x; y] < prod [a; c])
    by (apply unravel_offset; repeat constructor; done).
  replace (x * (c * 1) + (i * (d * (a * (c * 1))) + (j * (a * (c * 1)) + (y * 1 + 0))))
    with (offset (strides [d; d]) [i; j] * prod [a; c] + offset (strides [a; c]) [x; y])
    by (cbn; nia).
  rewrite nth_dot_data by (by apply flat_index_bound).
  rewrite Nat.div_add_l by lia. rewrite (Nat.div_small _ _ Hcol), Nat.add_0_r.
  rewrite (Nat.add_comm (_ * prod [a; c])), Nat.Div0.mod_add, (Nat.mod_small _ _ Hcol).
  change (prod (pick [d; d; d; d] [2; 3])) with (prod [d; d]).
  replace (d * d) with (prod [d; d]) by (simpl; lia).
  f_equal. apply map_ext_in. intros t Ht. apply in_seq in Ht.
  assert (t < d * d) as Ht' by (simpl in Ht; lia).
  destruct (legs2_bound d t Ht') as [Ht1 Ht2].
  pose proof (nth_transpose_data U [0; 1; 2; 3] [i; j; t / d; t mod d]) as HnU.
  pose proof (nth_transpose_data theta [1; 2; 0; 3] [t / d; t mod d; x; y]) as HnT.
  rewrite HU in HnU. rewrite Hth in HnT. cbn [pick map nth] in HnU, HnT.
  f_equal.
  - replace (offset (strides [d; d]) [i; j] * prod [d; d] + t)
      with (offset (strides ([d; d] ++ [d; d])) ([i; j] ++ [t / d; t mod d]))
      by (by rewrite offset_app, legs2_offset).
    cbn [app]. rewrite HnU by (repeat constructor; done).
    unfold item. by rewrite HU.
  - replace (t * prod [a; c] + offset (strides [a; c]) [x; y])
      with (offset (strides ([d; d] ++ [a; c])) ([t / d; t mod d] ++ [x; y]))
      by (by rewrite offset_app, legs2_offset).
    cbn [app]. rewrite HnT by (repeat constructor; done).
    unfold item. rewrite Hth. f_equal. cbn. lia.
Qed.

End GateContraction.

Section ShapeLemmas.
Context {SC : Scalar}.

Lemma tensordot_shape_10 (D B : ndarray) v d w :
  shape D = [v; v] -> shape B = [v; d; w] ->
  exists T, tensordot D B [1] [0] = Ok T /\ shape T = [v; d; w].
Proof.
  intros HD HB. eexists. split.
  - apply tensordot_Ok; unfold ndim; rewrite ?HD, ?HB;
      [done|solve_axes_equal|done|done].
  - unfold ndim. by rewrite HD, HB.
Qed.

Lemma tensordot_shape_20_site (T B : ndarray) v d w d' c :
  shape T = [v; d; w] -> shape B = [w; d'; c] ->
  exists R, tensordot T B [2] [0] = Ok R /\ shape R = [v; d; d'; c].
Proof.
  intros HT HB. eexists. split.
  - apply tensordot_Ok; unfold ndim; rewrite ?HT, ?HB;
      [done|solve_axes_equal|done|done].
  - unfold ndim. by rewrite HT, HB.
Qed.

Lemma tensordot_shape_20_matrix (T D : ndarray) v d w :
  shape T = [v; d; w] -> shape D = [w; w] ->
  exists R, tensordot T D [2] [0] = Ok R /\ shape R = [v; d; w].
Proof.
  intros HT HD. eexists. split.
  - apply tensordot_Ok; unfold ndim; rewrite ?HT, ?HD;
      [done|solve_axes_equal|done|done].
  - unfold ndim. by rewrite HT, HD.
Qed.

Lemma diag_shape (v : ndarray) n :
  shape v = [n] -> exists D, diag v = Ok D /\ shape D = [n; n].
Proof. intros H. eexists. split; [by apply diag_vector|done]. Qed.

(** The gauge step goes through on fitting shapes. *)
Lemma gauge_shape (Si A Sj : ndarray) v d k :
  shape Si = [v] -> shape A = [v; d; k] -> shape Sj = [k] ->
  exists G, gauge Si A Sj = Ok G /\ shape G = [v; d; k].
Proof.
  intros HSi HA HSj. unfold gauge.
  destruct (diag_shape (pow_m1 Si) v HSi) as (D & -> & HD). cbn [rbind].
  destruct (tensordot_shape_10 D A v d k HD HA) as (Gi & -> & HGi). cbn [rbind].
  destruct (diag_shape Sj k HSj) as (DS & -> & HDS). cbn [rbind].
  apply (tensordot_shape_20_matrix Gi DS v d k HGi HDS).
Qed.

End ShapeLemmas.

Section Conforming.
Context {SC : Scalar}.
Variable split_truncate_theta :
  ndarray -> Z -> scalar -> result (ndarray * ndarray * ndarray).

Local Abbreviation update_bond := (update_bond split_truncate_theta).
Local Abbreviation run_TEBD := (run_TEBD split_truncate_theta).
Local Abbreviation new_tensors := (new_tensors split_truncate_theta).
Local Abbreviation sweep_body := (sweep_body split_truncate_theta).

(** On fitting shapes the new tensors of a bond are computed without any
    shape or index error, and fit again. *)
Lemma new_tensors_shapes psi i U chi_max eps d v w c Si Bi Bj :
  split_shapes split_truncate_theta d ->
  L psi <> 0%Z ->
  getitem (Ss psi) i = Ok Si -> getitem (Bs psi) i = Ok Bi ->
  getitem (Bs psi) ((i + 1) mod L psi) = Ok Bj ->
  shape Si = [v] -> shape Bi = [v; d; w] -> shape Bj = [w; d; c] ->
  shape U = [d; d; d; d] ->
  match new_tensors psi i U chi_max eps with
  | Ok (j, G, Sj, Bj') =>
      j = ((i + 1) mod L psi)%Z /\
      exists k, shape G = [v; d; k] /\ shape Sj = [k] /\ shape Bj' = [k; d; c]
  | Raise e => exists theta, split_truncate_theta theta chi_max eps = Raise e
  end.
Proof.
  intros Hsplit HL ESi EBi EBj HSi HBi HBj HU.
  unfold Stages.new_tensors, gated_theta, get_theta2, bind, read, lift, mod_.
  destruct (Z.eqb_spec (L psi) 0); [done|]. cbn [rbind fst snd].
  rewrite ESi. cbn [rbind].
  destruct (diag_shape Si v HSi) as (D & -> & HD). cbn [rbind].
  rewrite EBi. cbn [rbind].
  destruct (tensordot_shape_10 D Bi v d w HD HBi) as (t1 & -> & Ht1). cbn [rbind].
  rewrite EBj. cbn [rbind].
  destruct (tensordot_shape_20_site t1 Bj v d w d c Ht1 HBj) as (theta & -> & Hth).
  destruct (apply_gate_entries U theta d v c HU Hth) as (R & -> & HR & _).
  cbn [rbind].
  destruct (split_truncate_theta R chi_max eps) as [[[A Sj] Bj']|e] eqn:Esp;
    [|by exists R].
  cbn [rbind].
  destruct (Hsplit R chi_max eps A Sj Bj' v c HR Esp) as (k & HA & HSj & HBj').
  destruct (gauge_shape Si A Sj v d k HSi HA HSj) as (G & -> & HG). cbn [rbind].
  split; [done|]. by exists k.
Qed.

(** The two sites of a bond of the chain, as list positions. *)
Lemma bond_positions psi i :
  wf psi -> (bc psi = "finite"%string \/ 2 <= L psi)%Z ->
  (0 <= i < Nbonds_of psi)%Z ->
  let n := length (Bs psi) in
  let p := Z.to_nat i in
  let q := Z.to_nat ((i + 1) mod L psi) in
  L psi <> 0%Z /\ (0 <= (i + 1) mod L psi)%Z /\ p < n /\ q < n /\ p <> q /\
  ((q = S p /\ S p < n) \/ (q = 0 /\ S p = n /\ 2 <= n /\ bc psi <> "finite"%string)).
Proof.
  intros [HB HS] Hbc Hi. cbn zeta. unfold Nbonds_of in Hi.
  destruct (String.eqb_spec (bc psi) "finite") as [Hfin|Hinf].
  - rewrite Z.mod_small by lia. lia.
  - destruct Hbc as [|HL]; [done|].
    destruct (Z.eq_dec (i + 1)%Z (L psi)) as [E|E].
    + rewrite E, Z_mod_same_full. repeat split; try lia. right. repeat split; try lia. done.
    + rewrite Z.mod_small by lia. lia.
Qed.

(** The bond update on fitting shapes, with the new bond dimensions spelled
    out: only the dimension of the updated bond changes, to the length [k]
    of the new singular-value vector. *)
Lemma update_bond_shapes (psi : MPS) (chi : nat -> nat) (i : Z)
    (U : ndarray) (chi_max : Z) (eps : scalar) (d : nat) :
  split_shapes split_truncate_theta d ->
  conforming d psi chi ->
  (bc psi = "finite"%string \/ 2 <= L psi)%Z ->
  (0 <= i < Nbonds_of psi)%Z ->
  shape U = [d; d; d; d] ->
  match update_bond i U chi_max eps psi with
  | (Ok _, psi') =>
      exists k,
        conforming d psi'
          (fun m => if decide (m = Z.to_nat ((i + 1) mod L psi)
                               \/ (Z.to_nat ((i + 1) mod L psi) = 0
                                   /\ m = length (Bs psi)))
                    then k else chi m)
  | (Raise e, psi') =>
      psi' = psi /\ exists theta, split_truncate_theta theta chi_max eps = Raise e
  end.
Proof.
  intros Hsplit (Hwf & HBs & HSs & Hper) Hbc Hi HU.
  destruct (bond_positions psi i Hwf Hbc Hi) as (HL & Hj & Hp & Hq & Hpq & Hrel).
  set (n := length (Bs psi)) in *.
  set (p := Z.to_nat i) in *.
  set (q := Z.to_nat ((i + 1) mod L psi)) in *.
  assert (length (Ss psi) = n) as HnS by (destruct Hwf; lia).
  destruct (lookup_lt_is_Some_2 (Ss psi) p) as [Si ESi]; [lia|].
  destruct (lookup_lt_is_Some_2 (Bs psi) p) as [Bi EBi]; [done|].
  destruct (lookup_lt_is_Some_2 (Bs psi) q) as [Bj EBj]; [done|].
  assert (chi (S p) = chi q) as Hlink.
  { destruct Hrel as [[-> _]|(-> & -> & _ & Hinf)]; [done|by apply Hper]. }
  pose proof (HSs _ _ ESi) as HSi. pose proof (HBs _ _ EBi) as HBi.
  pose proof (HBs _ _ EBj) as HBj. rewrite Hlink in HBi.
  pose proof (new_tensors_shapes psi i U chi_max eps d (chi p) (chi q) (chi (S q))
                Si Bi Bj Hsplit HL) as Hnew.
  rewrite update_bond_cases by (done || lia).
  destruct (new_tensors psi i U chi_max eps) as [[[[j G] Sj] Bj']|e].
  - destruct Hnew as (-> & k & HG & HSj & HBj');
      try done; try (apply getitem_Ok_lookup; [lia|done]).
    exists k.
    unfold conforming, stored. cbn [Bs Ss bc L].
    fold p q. split; [by apply (wf_stored psi i _ G Sj Bj')|].
    split; [|split].
    + intros m B.
      destruct (decide (m = q)) as [->|Hmq].
      { rewrite list_lookup_insert_eq by (rewrite length_insert; done).
        intros [= <-]. rewrite HBj'.
        repeat case_decide; try lia; done. }
      rewrite list_lookup_insert_ne by done.
      destruct (decide (m = p)) as [->|Hmp].
      { rewrite list_lookup_insert_eq by done. intros [= <-]. rewrite HG.
        repeat case_decide; try lia; done. }
      rewrite list_lookup_insert_ne by done. intros EB.
      pose proof (lookup_lt_Some _ _ _ EB). rewrite (HBs _ _ EB).
      repeat case_decide; try lia; done.
    + intros m S0.
      destruct (decide (m = q)) as [->|Hmq].
      { rewrite list_lookup_insert_eq by lia. intros [= <-]. rewrite HSj.
        repeat case_decide; try lia; done. }
      rewrite list_lookup_insert_ne by done. intros ES.
      pose proof (lookup_lt_Some _ _ _ ES). rewrite (HSs _ _ ES).
      repeat case_decide; try lia; done.
    + intros Hinf. rewrite !length_insert. fold n. specialize (Hper Hinf). fold n in Hper.
      repeat case_decide; try lia; done.
  - split; [done|]. apply Hnew; try done; apply getitem_Ok_lookup; (lia || done).
Qed.

(** X11.  On a chain whose shapes fit, with a gate of shape [(d, d, d, d)],
    a bond update raises no shape or index error: it either completes,
    and the shapes of the new chain fit again, or it raises what the
    decomposition routine raised, with the chain untouched.  The
    decomposition is assumed to return factors of the shapes
    [(a, d, k)], [(k)], [(k, d, c)]; an infinite chain needs two sites. *)
Theorem update_bond_conforming (psi : MPS) (chi : nat -> nat) (i : Z)
    (U : ndarray) (chi_max : Z) (eps : scalar) (d : nat) :
  split_shapes split_truncate_theta d ->
  conforming d psi chi ->
  (bc psi = "finite"%string \/ 2 <= L psi)%Z ->
  (0 <= i < Nbonds_of psi)%Z ->
  shape U = [d; d; d; d] ->
  match update_bond i U chi_max eps psi with
  | (Ok _, psi') => exists chi', conforming d psi' chi'
  | (Raise e, psi') =>
      psi' = psi /\ exists theta, split_truncate_theta theta chi_max eps = Raise e
  end.
Proof.
  intros Hsplit Hconf Hbc Hi HU.
  pose proof (update_bond_shapes psi chi i U chi_max eps d Hsplit Hconf Hbc Hi HU)
    as Hup.
  destruct (update_bond i U chi_max eps psi) as [[[]|e] psi']; [|done].
  destruct Hup as [k Hk]. eauto.
Qed.

(** X12.  On a chain whose shapes fit, with one gate of shape
    [(d, d, d, d)] per bond, [run_TEBD] raises no shape or index error: it
    either completes or stops on an exception of the decomposition routine,
    and in both cases the shapes along the chain fit and its layout is the
    one it had.  Same assumptions as for a single bond. *)
Theorem run_TEBD_conforming (psi : MPS) (chi : nat -> nat)
    (U_bonds : list ndarray) (N_steps chi_max : Z) (eps : scalar) (d : nat) :
  split_shapes split_truncate_theta d ->
  conforming d psi chi ->
  (bc psi = "finite"%string \/ 2 <= L psi)%Z ->
  Z.of_nat (length U_bonds) = Nbonds_of psi ->
  Forall (fun U => shape U = [d; d; d; d]) U_bonds ->
  match run_TEBD U_bonds N_steps chi_max eps psi with
  | (Ok _, psi') => (exists chi', conforming d psi' chi') /\ same_layout psi psi'
  | (Raise e, psi') =>
      ((exists chi', conforming d psi' chi') /\ same_layout psi psi') /\
      exists theta, split_truncate_theta theta chi_max eps = Raise e
  end.
Proof.
  intros Hsplit Hconf Hbc Hlen HU.
  rewrite run_TEBD_updates. unfold bind at 1, assert, ret, lift.
  rewrite Hlen, Z.eqb_refl.
  apply (for_hoare
           (fun psi0 => (exists chi', conforming d psi0 chi') /\ same_layout psi psi0)
           (fun e => exists theta, split_truncate_theta theta chi_max eps = Raise e)
           (fun i => (0 <= i < Nbonds_of psi)%Z));
    [|apply Forall_schedule|split; [by exists chi|apply same_layout_refl]].
  intros i psi0 Hi [[chi0 Hc0] Hlay].
  pose proof (same_layout_Nbonds _ _ Hlay) as HN.
  destruct Hlay as (HL0 & Hbc0 & HlB & HlS).
  unfold sweep_body, bind, lift.
  destruct (lookup_lt_is_Some_2 U_bonds (Z.to_nat i)) as [Ui EUi]; [lia|].
  rewrite (proj2 (getitem_Ok_lookup U_bonds i Ui (proj1 Hi)) EUi).
  assert (shape Ui = [d; d; d; d]) as HUi.
  { rewrite Forall_forall in HU. apply HU. by eapply list_elem_of_lookup_2. }
  pose proof (update_bond_shapes psi0 chi0 i Ui chi_max eps d Hsplit Hc0) as Hup.
  pose proof (update_bond_layout split_truncate_theta i Ui chi_max eps psi0) as Hl1.
  destruct (update_bond i Ui chi_max eps psi0) as [[[]|e] psi1]; simpl in Hl1.
  - destruct Hup as [k Hk]; try (by rewrite ?Hbc0, ?HL0) || (by rewrite ?HN).
    split; [eauto|].
    eapply same_layout_trans; [|done]. by unfold same_layout.
  - destruct Hup as [-> Hth]; try (by rewrite ?Hbc0, ?HL0) || (by rewrite ?HN).
    split; [|done]. split; [by exists chi0|by unfold same_layout].
Qed.

End Conforming.

Section MoreProperties.
Context {SC : Scalar}.
Variable split_truncate_theta :
  ndarray -> Z -> scalar -> result (ndarray * ndarray * ndarray).

Local Abbreviation update_bond := (update_bond split_truncate_theta).
Local Abbreviation run_TEBD := (run_TEBD split_truncate_theta).
Local Abbreviation new_tensors := (new_tensors split_truncate_theta).
Local Abbreviation sweep_body := (sweep_body split_truncate_theta).

(** X10.  The two calls that apply the gate in [update_bond],
    [tensordot(U_bond, theta, axes=([2, 3], [1, 2]))] followed by
    [transpose(.., [2, 0, 1, 3])], go through on a gate of shape
    [(d, d, d, d)] and a two-site tensor of shape [(a, d, d, c)], and give
    the tensor with legs [vL i j vR] whose entry at [(x, i, j, y)] is the
    sum over the input legs [i*] and [j*] of
    [U[i, j, i*, j*] * theta[x, i*, j*, y]]. *)
Theorem gate_contraction_entries (U theta : ndarray) (d a c : nat) :
  shape U = [d; d; d; d] -> shape theta = [a; d; d; c] ->
  exists T R,
    tensordot U theta [2; 3] [1; 2] = Ok T /\
    transpose T [2; 0; 1; 3] = Ok R /\
    shape R = [a; d; d; c] /\
    forall x i j y, x < a -> i < d -> j < d -> y < c ->
      item R [x; i; j; y]
      = ssum (map (fun t => s_mul (item U [i; j; t / d; t mod d])
                                  (item theta [x; t / d; t mod d; y]))
                  (seq 0 (d * d))).
Proof.
  intros HU Hth.
  destruct (apply_gate_entries U theta d a c HU Hth) as (R & HR & Hsh & _ & Hent).
  unfold apply_gate in HR.
  destruct (tensordot U theta [2; 3] [1; 2]) as [T|]; [|done].
  by exists T, R.
Qed.

(** X14.  Calling [run_TEBD] [n] times with one step each, as the loop of
    [example_TEBD_lightcone] does, is calling it once with [n] steps
    ([n >= 1]; the run stops at the first call that raises). *)
Theorem run_TEBD_one_step_at_a_time (U_bonds : list ndarray) (n : nat)
    (chi_max : Z) (eps : scalar) (psi : MPS) :
  1 <= n ->
  for_ (range 0 (Z.of_nat n) 1) (fun _ => run_TEBD U_bonds 1 chi_max eps) psi
  = run_TEBD U_bonds (Z.of_nat n) chi_max eps psi.
Proof.
  intros Hn. rewrite for_ignore, length_range_unit_step, Nat2Z.id.
  revert psi. induction n as [|n IH]; [lia|]. intros psi.
  destruct n as [|n].
  - simpl. apply bind_ret_tt.
  - change (S (S n)) with (1 + S n) at 2.
    rewrite (run_TEBD_split_steps split_truncate_theta).
    change (repeat tt (S (S n))) with (tt :: repeat tt (S n)). cbn [for_].
    apply bind_ext; [done|]. intros _ psi'. apply IH. lia.
Qed.

Lemma tensordot_20_mismatch (T B : ndarray) (k d v k' d' c : nat) :
  shape T = [k; d; v] -> shape B = [k'; d'; c] -> v <> k' ->
  tensordot T B [2] [0] = Raise ValueError.
Proof.
  intros HT HB Hne. unfold tensordot. cbn [length Nat.eqb negb axes_equal].
  rewrite !getitem_of_nat, HT, HB. cbn [lookup list_lookup rbind].
  by destruct (Nat.eqb_spec v k').
Qed.

(** X13.  An infinite chain of one site does not survive a change of its
    bond dimension: its only bond joins the site to itself, so when an
    update returns a singular-value vector of another length than before,
    the stored tensor [B[0]] has different left and right dimensions, and
    every later update raises [ValueError] when the two-site tensor is
    built. *)
Theorem single_site_chain_breaks (psi psi' : MPS) (U U' : ndarray)
    (chi_max chi_max' : Z) (eps eps' : scalar) (d v : nat) (B0 S0 S1 : ndarray) :
  split_shapes split_truncate_theta d ->
  wf psi -> L psi = 1%Z ->
  Bs psi !! 0 = Some B0 -> shape B0 = [v; d; v] ->
  Ss psi !! 0 = Some S0 -> shape S0 = [v] ->
  shape U = [d; d; d; d] ->
  update_bond 0 U chi_max eps psi = (Ok tt, psi') ->
  Ss psi' !! 0 = Some S1 -> shape S1 <> [v] ->
  update_bond 0 U' chi_max' eps' psi' = (Raise ValueError, psi').
Proof.
  intros Hsplit Hwf HL EB0 HB0 ES0 HS0 HU Hup ES1 HS1.
  rewrite update_bond_cases in Hup by done.
  pose proof (new_tensors_shapes split_truncate_theta psi 0 U chi_max eps d v v v
                S0 B0 B0 Hsplit) as Hnew.
  rewrite HL in Hnew. change ((0 + 1) mod 1)%Z with 0%Z in Hnew.
  destruct (new_tensors psi 0 U chi_max eps) as [[[[j G] Sj] Bj]|]; [|done].
  destruct Hnew as (-> & k & HG & HSj & HBj);
    try done; try (by apply getitem_Ok_lookup).
  injection Hup as <-.
  destruct Hwf as [HlB HlS]. rewrite HL in HlB, HlS.
  unfold stored in ES1. cbn [Ss] in ES1.
  rewrite list_lookup_insert_eq in ES1 by lia. injection ES1 as <-.
  assert (v <> k) as Hvk by (rewrite HSj in HS1; congruence).
  unfold Tebd.update_bond, get_theta2, bind, read, lift, mod_, stored.
  cbn [L Ss Bs fst snd]. rewrite HL. cbn [Z.eqb rbind].
  change ((0 + 1) mod 1)%Z with 0%Z.
  rewrite !getitem_nonneg by lia. change (Z.to_nat 0) with 0.
  rewrite !list_lookup_insert_eq by (rewrite ?length_insert; lia).
  cbn [rbind].
  destruct (diag_shape Sj k HSj) as (D & -> & HD). cbn [rbind].
  destruct (tensordot_shape_10 D Bj k d v HD HBj) as (t1 & -> & Ht1). cbn [rbind].
  by rewrite (tensordot_20_mismatch t1 Bj k d v k d v Ht1 HBj Hvk).
Qed.

(** X15.  Lines 100-101 of [example_TEBD_lightcone]: applying a one-site
    operator of shape [(d, d)] to a site tensor of shape [(a, d, b)] goes
    through, changes [psi.Bs[i0]] only, keeps its shape, and the new entry
    at [(x, p, y)] is the sum over [q] of [op[p, q] * B[x, q, y]]. *)
Theorem apply_site_operator_entries (psi : MPS) (op B : ndarray) (i0 : Z)
    (a d b : nat) :
  (0 <= i0)%Z -> Bs psi !! Z.to_nat i0 = Some B ->
  shape op = [d; d] -> shape B = [a; d; b] ->
  exists B',
    apply_site_operator op i0 psi
    = (Ok tt, mk_MPS (<[Z.to_nat i0 := B']> (Bs psi)) (Ss psi) (bc psi) (L psi)) /\
    shape B' = [a; d; b] /\
    forall x p y, x < a -> p < d -> y < b ->
      item B' [x; p; y]
      = ssum (map (fun q => s_mul (item op [p; q]) (item B [x; q; y])) (seq 0 d)).
Proof.
  intros Hi EB Hop HB.
  unfold apply_site_operator, bind, read, lift, set_Bs. cbn [fst snd].
  rewrite (proj2 (getitem_Ok_lookup (Bs psi) i0 B Hi) EB).
  rewrite tensordot_Ok; unfold ndim; rewrite ?Hop, ?HB;
    [|done|solve_axes_equal|done|done].
  rewrite transpose_Ok by done.
  rewrite setitem_nonneg by done.
  destruct (Nat.ltb_spec (Z.to_nat i0) (length (Bs psi))) as [_|Hge];
    [|apply lookup_lt_Some in EB; lia].
  eexists. split; [done|]. split; [done|].
  intros x p y Hx Hp Hy.
  unfold item at 1. cbn [shape data].
  change (notin (length [d; d]) [1]) with [0].
  change (notin (length [a; d; b]) [1]) with [0; 2].
  change (pick [d; d] [0]) with [d].
  change (pick [d; d] [1]) with [d].
  change (pick [a; d; b] [0; 2]) with [a; b].
  change ([0] ++ [1]) with [0; 1].
  change ([1] ++ [0; 2]) with [1; 0; 2].
  match goal with
  | |- context [transpose_data ?T [1; 0; 2]] =>
      lazymatch T with B => fail | _ => set (T1 := T) end
  end.
  change (pick ([d] ++ [a; b]) [1; 0; 2]) with (pick (shape T1) [1; 0; 2]).
  rewrite nth_transpose_data by (cbn; repeat constructor; done).
  subst T1. cbn [shape data].
  change (offset (pick (strides ([d] ++ [a; b])) [1; 0; 2]) [x; p; y])
    with (x * (b * 1) + (p * (a * (b * 1)) + (y * 1 + 0))).
  assert (Hcol : offset (strides [a; b]) [x; y] < prod [a; b])
    by (apply unravel_offset; repeat constructor; done).
  replace (x * (b * 1) + (p * (a * (b * 1)) + (y * 1 + 0)))
    with (p * prod [a; b] + offset (strides [a; b]) [x; y]) by (cbn; nia).
  change (prod [d]) with (d * 1). rewrite (Nat.mul_1_r d).
  rewrite nth_dot_data by (by apply flat_index_bound).
  rewrite Nat.div_add_l by lia. rewrite (Nat.div_small _ _ Hcol), Nat.add_0_r.
  rewrite (Nat.add_comm (_ * prod [a; b])), Nat.Div0.mod_add, (Nat.mod_small _ _ Hcol).
  f_equal. apply map_ext_in. intros q Hq. apply in_seq in Hq.
  pose proof (nth_transpose_data op [0; 1] [p; q]) as HnO.
  pose proof (nth_transpose_data B [1; 0; 2] [q; x; y]) as HnB.
  rewrite Hop in HnO. rewrite HB in HnB. cbn [pick map nth] in HnO, HnB.
  f_equal.
  - replace (p * d + q) with (offset (strides [d; d]) [p; q]) by (cbn; lia).
    rewrite HnO by (repeat constructor; lia).
    unfold item. by rewrite Hop.
  - replace (q * prod [a; b] + offset (strides [a; b]) [x; y])
      with (offset (strides ([d] ++ [a; b])) ([q] ++ [x; y]))
      by (rewrite offset_app by done; cbn; lia).
    cbn [app]. rewrite HnB by (repeat constructor; lia).
    unfold item. rewrite HB. f_equal. cbn. lia.
Qed.

End MoreProperties.

(* ===================================================================== *)
(** ** The further properties on concrete chains *)
(* ===================================================================== *)

Lemma split_one_entry_shapes (d : nat) : split_shapes split_one_entry d.
Proof.
  intros theta chi_max eps A S B a c Hth. unfold split_one_entry. rewrite Hth.
  destruct (nonzeros (data theta)) as [|p [|]]; try done.
  case_match; [|done]. intros [= <- <- <-]. by exists 1.
Qed.

Lemma conforming_product_state (sites : list ndarray) (bc : string) :
  Forall (fun B => shape B = [1; 2; 1]) sites ->
  conforming 2 (product_state sites bc) (fun _ => 1).
Proof.
  intros HF. split; [apply wf_product_state|]. split; [|split; [|done]].
  - intros k B HB. rewrite Forall_forall in HF. apply HF.
    by eapply list_elem_of_lookup_2.
  - intros k S. unfold product_state. cbn [Ss]. rewrite list_lookup_fmap.
    destruct (sites !! k); [|done]. by intros [= <-].
Qed.

(** X2 on the two-site chain. *)
Lemma run_TEBD_finite_keeps_S0_witness :
  Ss (snd (run_TEBD split_one_entry [U_flip] 2 5 (Fin 0) chain2)) !! 0 = Some S_one.
Proof.
  rewrite (run_TEBD_finite_keeps_S0 split_one_entry [U_flip] 2 5 (Fin 0) chain2).
  - reflexivity.
  - apply wf_product_state.
  - reflexivity.
Defined.

(** X3 on the two-site chain: 1 + 1 steps. *)
Lemma run_TEBD_steps_add_witness :
  run_TEBD split_one_entry [U_flip] (1 + 1) 5 (Fin 0) chain2
  = bind (run_TEBD split_one_entry [U_flip] 1 5 (Fin 0))
         (fun _ => run_TEBD split_one_entry [U_flip] 1 5 (Fin 0)) chain2.
Proof.
  apply (run_TEBD_steps_add split_one_entry [U_flip] 1 1 5 (Fin 0) chain2); lia.
Defined.

(** X4 on the four-site chain: bonds 0 and 2 are updated, bond 1 raises. *)
Lemma run_TEBD_raise_between_bonds_witness :
  exists k : nat,
    for_ (take k (schedule (Z.to_nat 1) (Nbonds_of chain4)))
      (sweep_body split_one_entry [U_flip; U_mix; U_id] 5 (Fin 0)) chain4
    = (Ok tt, product_state [B_down; B_down; B_up; B_up] "finite").
Proof.
  apply (run_TEBD_raise_between_bonds split_one_entry [U_flip; U_mix; U_id] 1 5
           (Fin 0) chain4 (product_state [B_down; B_down; B_up; B_up] "finite")
           LinAlgError).
  - apply wf_product_state.
  - vm_compute. reflexivity.
Defined.

(** X5 on the two-site chain: [N_steps = -3]. *)
Lemma run_TEBD_nonpositive_steps_witness :
  run_TEBD split_one_entry [U_flip] (-3) 5 (Fin 0) chain2 = (Ok tt, chain2).
Proof.
  rewrite (run_TEBD_nonpositive_steps split_one_entry [U_flip] (-3) 5 (Fin 0) chain2).
  - reflexivity.
  - lia.
Defined.

(** X6 on the finite chain without sites. *)
Lemma run_TEBD_empty_finite_chain_witness :
  run_TEBD split_one_entry [] 1 5 (Fin 0) (product_state [] "finite")
  = (Raise AssertionError, product_state [] "finite").
Proof.
  apply (run_TEBD_empty_finite_chain split_one_entry [] 1 5 (Fin 0)
           (product_state [] "finite")); reflexivity.
Defined.

(** X7 on the two-site chain: bond index 2. *)
Lemma update_bond_index_out_of_range_witness :
  update_bond split_one_entry 2 U_flip 5 (Fin 0) chain2 = (Raise IndexError, chain2).
Proof.
  apply (update_bond_index_out_of_range split_one_entry chain2 2 U_flip 5 (Fin 0)).
  - apply wf_product_state.
  - vm_compute. discriminate.
Defined.


(** X9 on a list that mixes a four-leg array and a [4 x 4] matrix. *)
Lemma calc_U_bonds_any_shape_witness :
  exists U_bonds,
    calc_U_bonds expm_shape_only
      [U_id; arr [4; 4] [1;0;0;0; 0;1;0;0; 0;0;1;0; 0;0;0;1]%Z] (Fin 1)
    = Ok U_bonds /\
    Forall (fun U => shape U = [2; 2; 2; 2]) U_bonds.
Proof.
  destruct (calc_U_bonds_any_shape expm_shape_only expm_shape_only_square U_id
              [arr [4; 4] [1;0;0;0; 0;1;0;0; 0;0;1;0; 0;0;0;1]%Z] 2 [2; 2; 2] (Fin 1))
    as (Us & H1 & _ & H3).
  - reflexivity.
  - repeat constructor.
  - exists Us. split; [exact H1|exact H3].
Defined.

(** X10 on the spin flip applied to two spins up. *)
Lemma gate_contraction_entries_witness :
  exists T R,
    tensordot U_flip (arr [1; 2; 2; 1] [1; 0; 0; 0]%Z) [2; 3] [1; 2] = Ok T /\
    transpose T [2; 0; 1; 3] = Ok R /\
    shape R = [1; 2; 2; 1].
Proof.
  destruct (gate_contraction_entries U_flip (arr [1; 2; 2; 1] [1; 0; 0; 0]%Z) 2 1 1)
    as (T & R & H1 & H2 & H3 & _).
  - reflexivity.
  - reflexivity.
  - exists T, R. split; [exact H1|]. split; [exact H2|exact H3].
Defined.

(** X11 on bond 1 of the four-site chain. *)
Lemma update_bond_conforming_witness :
  match update_bond split_one_entry 1 U_flip 5 (Fin 0) chain4 with
  | (Ok _, psi') => exists chi', conforming 2 psi' chi'
  | (Raise e, psi') =>
      psi' = chain4 /\ exists theta, split_one_entry theta 5 (Fin 0) = Raise e
  end.
Proof.
  apply (update_bond_conforming split_one_entry chain4 (fun _ => 1) 1 U_flip 5
           (Fin 0) 2).
  - apply split_one_entry_shapes.
  - apply conforming_product_state. repeat constructor.
  - left. reflexivity.
  - vm_compute. split; [discriminate|reflexivity].
  - reflexivity.
Defined.

(** X12 on the four-site chain, with a gate on which the stand-in for the
    decomposition raises. *)
Lemma run_TEBD_conforming_witness :
  match run_TEBD split_one_entry [U_flip; U_mix; U_id] 2 5 (Fin 0) chain4 with
  | (Ok _, psi') => (exists chi', conforming 2 psi' chi') /\ same_layout chain4 psi'
  | (Raise e, psi') =>
      ((exists chi', conforming 2 psi' chi') /\ same_layout chain4 psi') /\
      exists theta, split_one_entry theta 5 (Fin 0) = Raise e
  end.
Proof.
  apply (run_TEBD_conforming split_one_entry chain4 (fun _ => 1)
           [U_flip; U_mix; U_id] 2 5 (Fin 0) 2).
  - apply split_one_entry_shapes.
  - apply conforming_product_state. repeat constructor.
  - left. reflexivity.
  - reflexivity.
  - repeat constructor.
Defined.

(** X13 on the one-site chain of bond dimension 2: the first update brings
    the bond dimension to 1, the second one raises. *)
Lemma single_site_chain_breaks_witness :
  exists psi',
    update_bond split_one_entry 0 U_id 5 (Fin 0) chain1_dim2 = (Ok tt, psi') /\
    update_bond split_one_entry 0 U_id 5 (Fin 0) psi' = (Raise ValueError, psi').
Proof.
  exists (mk_MPS [arr [1; 2; 2] [1; 0; 0; 0]%Z] [S_one] "infinite" 1).
  split; [vm_compute; reflexivity|].
  apply (single_site_chain_breaks split_one_entry chain1_dim2 _ U_id U_id 5 5
           (Fin 0) (Fin 0) 2 2
           (arr [2; 2; 2] [1; 0; 0; 0; 0; 0; 0; 0]%Z) (arr [2] [1; 1]%Z) S_one).
  - apply split_one_entry_shapes.
  - vm_compute. split; reflexivity.
  - reflexivity.
  - reflexivity.
  - reflexivity.
  - reflexivity.
  - reflexivity.
  - reflexivity.
  - vm_compute. reflexivity.
  - reflexivity.
  - vm_compute. discriminate.
Defined.

(** X14 on the two-site chain: three calls with one step each. *)
Lemma run_TEBD_one_step_at_a_time_witness :
  for_ (range 0 3 1) (fun _ => run_TEBD split_one_entry [U_flip] 1 5 (Fin 0)) chain2
  = run_TEBD split_one_entry [U_flip] 3 5 (Fin 0) chain2.
Proof.
  apply (run_TEBD_one_step_at_a_time split_one_entry [U_flip] 3 5 (Fin 0) chain2).
  lia.
Defined.

(** X15 on the two-site chain: the spin flip on site 1. *)
Lemma apply_site_operator_entries_witness :
  exists B',
    apply_site_operator sigma_x 1 chain2
    = (Ok tt, mk_MPS (<[1 := B']> (Bs chain2)) (Ss chain2) (bc chain2) (L chain2)) /\
    shape B' = [1; 2; 1].
Proof.
  destruct (apply_site_operator_entries chain2 sigma_x B_up 1 1 2 1)
    as (B' & H1 & H2 & _).
  - lia.
  - reflexivity.
  - reflexivity.
  - reflexivity.
  - exists B'. split; [exact H1|exact H2].
Defined.
